(** * DeepSeek router: the streaming relay and the credential handling

    A shallow embedding of [routers/deepseek.py].  Python values are given
    the shape the interpreter gives them: [str] is a sequence of code points,
    [bytes] a sequence of bytes, the objects [json.loads] returns form an
    inductive type, and an exception is a value of [exn] carried by the
    error side of [result]. *)

From Stdlib Require Import List Strings.String Strings.Ascii Strings.Byte.
From Stdlib Require Import NArith ZArith Bool Lia.
From Stdlib Require Import DecimalString.
Import ListNotations.

Local Open Scope N_scope.

(** ** Python [str] and [bytes] *)

Definition pystr := list N.
Definition pybytes := list byte.

(** A source literal with ASCII text only. *)
Definition lit (s : string) : pystr := map Byte.to_N (list_byte_of_string s).

(** ASCII text with every apostrophe read as a double quote, for JSON
    samples. *)
Definition dq (s : string) : pystr :=
  map (fun c => if c =? 39 then 34 else c) (lit s).

(** The UTF-8 encoding of ASCII text. *)
Definition ascii_bytes (s : pystr) : pybytes :=
  map (fun c => match Byte.of_N c with Some b => b | None => x00 end) s.

Fixpoint pystr_eqb (a b : pystr) : bool :=
  match a, b with
  | [], [] => true
  | x :: a', y :: b' => (x =? y) && pystr_eqb a' b'
  | _, _ => false
  end.

(** [s.startswith(prefix)] *)
Fixpoint startswith (prefix s : pystr) : bool :=
  match prefix, s with
  | [], _ => true
  | p :: prefix', c :: s' => (p =? c) && startswith prefix' s'
  | _ :: _, [] => false
  end.

Definition in_range (lo hi c : N) : bool := (lo <=? c) && (c <=? hi).

(** [bytes.decode('utf-8')] in strict mode: [None] is [UnicodeDecodeError].
    Overlong forms, surrogates and values above U+10FFFF are rejected. *)
Fixpoint utf8_decode (bs : list N) : option pystr :=
  match bs with
  | [] => Some []
  | b0 :: t0 =>
      if b0 <? 128 then option_map (cons b0) (utf8_decode t0)
      else if in_range 194 223 b0 then
        match t0 with
        | b1 :: t1 =>
            if in_range 128 191 b1
            then option_map (cons ((b0 - 192) * 64 + (b1 - 128))) (utf8_decode t1)
            else None
        | _ => None
        end
      else if in_range 224 239 b0 then
        match t0 with
        | b1 :: b2 :: t2 =>
            if in_range (if b0 =? 224 then 160 else 128)
                        (if b0 =? 237 then 159 else 191) b1
               && in_range 128 191 b2
            then option_map
                   (cons ((b0 - 224) * 4096 + (b1 - 128) * 64 + (b2 - 128)))
                   (utf8_decode t2)
            else None
        | _ => None
        end
      else if in_range 240 244 b0 then
        match t0 with
        | b1 :: b2 :: b3 :: t3 =>
            if in_range (if b0 =? 240 then 144 else 128)
                        (if b0 =? 244 then 143 else 191) b1
               && in_range 128 191 b2 && in_range 128 191 b3
            then option_map
                   (cons ((b0 - 240) * 262144 + (b1 - 128) * 4096
                          + (b2 - 128) * 64 + (b3 - 128)))
                   (utf8_decode t3)
            else None
        | _ => None
        end
      else None
  end.

Definition decode (line : pybytes) : option pystr :=
  utf8_decode (map Byte.to_N line).

(** ** The objects of [json.loads] *)

(** A [dict] keeps its keys in insertion order.  A [float] is carried as the
    literal that denotes it: the router never computes with it, and
    [json.dumps] writes the [repr] of the double the literal reads as. *)
#[warnings="-register-all"]
Inductive value : Type :=
| VNone
| VBool (b : bool)
| VInt (z : Z)
| VFloat (literal : pystr)
| VStr (s : pystr)
| VList (xs : list value)
| VDict (items : list (pystr * value)).

Definition dict := list (pystr * value).

(** [key in d] and [d[key]] for a key that is present. *)
Fixpoint lookup (d : dict) (key : pystr) : option value :=
  match d with
  | [] => None
  | (k, v) :: d' => if pystr_eqb k key then Some v else lookup d' key
  end.

(** [d[key] = v]: an existing key keeps its place. *)
Fixpoint dict_set (d : dict) (key : pystr) (v : value) : dict :=
  match d with
  | [] => [(key, v)]
  | (k, w) :: d' =>
      if pystr_eqb k key then (k, v) :: d' else (k, w) :: dict_set d' key v
  end.

(** ** [json.loads] *)

Definition is_ws (c : N) : bool :=
  (c =? 32) || (c =? 9) || (c =? 10) || (c =? 13).

Fixpoint skip_ws (s : pystr) : pystr :=
  match s with
  | c :: r => if is_ws c then skip_ws r else s
  | [] => []
  end.

Definition is_digit (c : N) : bool := in_range 48 57 c.

Definition hex_val (c : N) : option N :=
  if in_range 48 57 c then Some (c - 48)
  else if in_range 97 102 c then Some (c - 87)
  else if in_range 65 70 c then Some (c - 55)
  else None.

Definition hex4 (a b c d : N) : option N :=
  match hex_val a, hex_val b, hex_val c, hex_val d with
  | Some x, Some y, Some z, Some w => Some (((x * 16 + y) * 16 + z) * 16 + w)
  | _, _, _, _ => None
  end.

Definition simple_escape (c : N) : option N :=
  if c =? 34 then Some 34          (* quote *)
  else if c =? 92 then Some 92     (* backslash *)
  else if c =? 47 then Some 47     (* slash *)
  else if c =? 98 then Some 8      (* b: backspace *)
  else if c =? 102 then Some 12    (* f: form feed *)
  else if c =? 110 then Some 10    (* n: line feed *)
  else if c =? 114 then Some 13    (* r: carriage return *)
  else if c =? 116 then Some 9     (* t: tab *)
  else None.

(** The text after an opening quote, up to the closing one (strict mode:
    a raw control character is an error). A high surrogate escape directly
    followed by a low surrogate escape is one code point. *)
Fixpoint scanstring (s : pystr) : option (pystr * pystr) :=
  match s with
  | [] => None
  | c :: r =>
      if c =? 34 then Some ([], r)
      else if c <? 32 then None
      else if c =? 92 then
        match r with
        | [] => None
        | e :: r1 =>
            if e =? 117 then
              match r1 with
              | h1 :: h2 :: h3 :: h4 :: r2 =>
                  match hex4 h1 h2 h3 h4 with
                  | None => None
                  | Some u =>
                      let single :=
                        match scanstring r2 with
                        | Some (t, rest) => Some (u :: t, rest)
                        | None => None
                        end in
                      if in_range 55296 56319 u then
                        match r2 with
                        | b :: r3 =>
                            match r3 with
                            | x :: r4 =>
                                if (b =? 92) && (x =? 117) then
                                  match r4 with
                                  | g1 :: g2 :: g3 :: g4 :: r5 =>
                                      match hex4 g1 g2 g3 g4 with
                                      | None => None
                                      | Some u2 =>
                                          if in_range 56320 57343 u2 then
                                            match scanstring r5 with
                                            | Some (t, rest) =>
                                                Some (65536 + (u - 55296) * 1024
                                                      + (u2 - 56320) :: t, rest)
                                            | None => None
                                            end
                                          else single
                                      end
                                  | _ => None
                                  end
                                else single
                            | [] => single
                            end
                        | [] => single
                        end
                      else single
                  end
              | _ => None
              end
            else
              match simple_escape e with
              | None => None
              | Some ch =>
                  match scanstring r1 with
                  | Some (t, rest) => Some (ch :: t, rest)
                  | None => None
                  end
              end
        end
      else
        match scanstring r with
        | Some (t, rest) => Some (c :: t, rest)
        | None => None
        end
  end.

Fixpoint span_digits (s : pystr) : pystr * pystr :=
  match s with
  | c :: r =>
      if is_digit c then let (ds, rest) := span_digits r in (c :: ds, rest)
      else ([], s)
  | [] => ([], [])
  end.

Definition digits_value (ds : pystr) : Z :=
  fold_left (fun acc c => (acc * 10 + Z.of_N (c - 48))%Z) ds 0%Z.

(** The integer part: a zero, or a digit from 1 to 9 and any digits. *)
Definition match_int_part (s : pystr) : option (pystr * pystr) :=
  match s with
  | c :: r =>
      if c =? 48 then Some ([48], r)
      else if in_range 49 57 c then Some (span_digits s)
      else None
  | [] => None
  end.

(** The optional fraction: a dot and at least one digit. *)
Definition match_frac (s : pystr) : pystr * pystr :=
  match s with
  | c :: r =>
      if c =? 46 then
        match span_digits r with
        | ([], _) => ([], s)
        | (ds, rest) => (c :: ds, rest)
        end
      else ([], s)
  | [] => ([], [])
  end.

(** The optional exponent: e or E, an optional sign, at least one digit. *)
Definition match_exp (s : pystr) : pystr * pystr :=
  match s with
  | c :: r =>
      if (c =? 101) || (c =? 69) then
        let (sign, r') :=
          match r with
          | g :: r1 => if (g =? 45) || (g =? 43) then ([g], r1) else ([], r)
          | [] => ([], r)
          end in
        match span_digits r' with
        | ([], _) => ([], s)
        | (ds, rest) => (c :: sign ++ ds, rest)
        end
      else ([], s)
  | [] => ([], [])
  end.

(** A number at the head of [s]: an [int] when it has neither fraction nor
    exponent, a [float] otherwise. *)
Definition match_number (s : pystr) : option (value * pystr) :=
  let (neg, s1) :=
    match s with
    | c :: r => if c =? 45 then (true, r) else (false, s)
    | [] => (false, s)
    end in
  match match_int_part s1 with
  | None => None
  | Some (ip, s2) =>
      let (fr, s3) := match_frac s2 in
      let (ex, s4) := match_exp s3 in
      match fr, ex with
      | [], [] =>
          Some (VInt (if neg then - digits_value ip else digits_value ip)%Z, s4)
      | _, _ =>
          Some (VFloat ((if neg then [45] else []) ++ ip ++ fr ++ ex), s4)
      end
  end.

(** [s] without the leading [word], when it starts with it. *)
Definition strip_prefix (word s : pystr) : option pystr :=
  if startswith word s then Some (skipn (List.length word) s) else None.

Definition scan_constant (s : pystr) : option (value * pystr) :=
  match strip_prefix (lit "null") s with
  | Some r => Some (VNone, r)
  | None =>
  match strip_prefix (lit "true") s with
  | Some r => Some (VBool true, r)
  | None =>
  match strip_prefix (lit "false") s with
  | Some r => Some (VBool false, r)
  | None =>
  match match_number s with
  | Some res => Some res
  | None =>
  match strip_prefix (lit "NaN") s with
  | Some r => Some (VFloat (lit "NaN"), r)
  | None =>
  match strip_prefix (lit "Infinity") s with
  | Some r => Some (VFloat (lit "Infinity"), r)
  | None =>
  match strip_prefix (lit "-Infinity") s with
  | Some r => Some (VFloat (lit "-Infinity"), r)
  | None => None
  end end end end end end end.

(** The scanner is written once with its recursive calls as parameters:
    [members] and [elements] scan the inside of an object and of an array,
    [once] scans one value. *)

(** One value at the head of [s]. *)
Definition once_body
    (members : dict -> pystr -> option (dict * pystr))
    (elements : pystr -> option (list value * pystr))
    (s : pystr) : option (value * pystr) :=
  match s with
  | [] => None
  | c :: r =>
      if c =? 34 then
        match scanstring r with
        | Some (t, rest) => Some (VStr t, rest)
        | None => None
        end
      else if c =? 123 then
        match skip_ws r with
        | c1 :: r1 =>
            if c1 =? 125 then Some (VDict [], r1)
            else
              match members [] (c1 :: r1) with
              | Some (d, rest) => Some (VDict d, rest)
              | None => None
              end
        | [] => None
        end
      else if c =? 91 then
        match skip_ws r with
        | c1 :: r1 =>
            if c1 =? 93 then Some (VList [], r1)
            else
              match elements (c1 :: r1) with
              | Some (xs, rest) => Some (VList xs, rest)
              | None => None
              end
        | [] => None
        end
      else scan_constant s
  end.

(** The members of an object, from a key to the closing brace; a key met
    again takes the new value. *)
Definition members_body
    (once : pystr -> option (value * pystr))
    (members : dict -> pystr -> option (dict * pystr))
    (acc : dict) (s : pystr) : option (dict * pystr) :=
  match s with
  | q :: r =>
      if q =? 34 then
        match scanstring r with
        | None => None
        | Some (key, r1) =>
            match skip_ws r1 with
            | colon :: r2 =>
                if colon =? 58 then
                  match once (skip_ws r2) with
                  | None => None
                  | Some (v, r3) =>
                      let acc' := dict_set acc key v in
                      match skip_ws r3 with
                      | e :: r4 =>
                          if e =? 125 then Some (acc', r4)
                          else if e =? 44 then members acc' (skip_ws r4)
                          else None
                      | [] => None
                      end
                  end
                else None
            | [] => None
            end
        end
      else None
  | [] => None
  end.

(** The elements of an array, from a value to the closing bracket. *)
Definition elements_body
    (once : pystr -> option (value * pystr))
    (elements : pystr -> option (list value * pystr))
    (s : pystr) : option (list value * pystr) :=
  match once s with
  | None => None
  | Some (v, r) =>
      match skip_ws r with
      | e :: r1 =>
          if e =? 93 then Some ([v], r1)
          else if e =? 44 then
            match elements (skip_ws r1) with
            | Some (vs, rest) => Some (v :: vs, rest)
            | None => None
            end
          else None
      | [] => None
      end
  end.

(** The recursion, on a fuel that bounds the nested and successive scans. *)
Fixpoint scan_once (fuel : nat) (s : pystr) : option (value * pystr) :=
  match fuel with
  | O => None
  | S fuel' => once_body (scan_members fuel') (scan_elements fuel') s
  end
with scan_members (fuel : nat) (acc : dict) (s : pystr)
  : option (dict * pystr) :=
  match fuel with
  | O => None
  | S fuel' => members_body (scan_once fuel') (scan_members fuel') acc s
  end
with scan_elements (fuel : nat) (s : pystr) : option (list value * pystr) :=
  match fuel with
  | O => None
  | S fuel' => elements_body (scan_once fuel') (scan_elements fuel') s
  end.

(** The decoder with a given fuel: one value, then nothing but white
    space. *)
Definition decode_with (fuel : nat) (s : pystr) : option value :=
  match scan_once fuel (skip_ws s) with
  | Some (v, rest) =>
      match skip_ws rest with
      | [] => Some v
      | _ :: _ => None
      end
  | None => None
  end.

(** [json.loads(s)]: [None] is [json.JSONDecodeError].  The fuel is enough
    for every text ([decode_with_enough]). *)
Definition json_loads (s : pystr) : option value :=
  decode_with (2 * List.length s + 2) s.

(** ** [json.dumps] *)

Definition hex_digit (n : N) : N := if n <? 10 then 48 + n else 87 + n.

(** [\uXXXX] with lowercase digits. *)
Definition u_escape (n : N) : pystr :=
  [92; 117; hex_digit (n / 4096 mod 16); hex_digit (n / 256 mod 16);
   hex_digit (n / 16 mod 16); hex_digit (n mod 16)].

(** The replacement of one character under [ensure_ascii=True]: the
    printable ASCII characters other than the quote and the backslash stand
    for themselves, a character beyond the BMP becomes a surrogate pair. *)
Definition escape_char (c : N) : pystr :=
  if c =? 34 then [92; 34]
  else if c =? 92 then [92; 92]
  else if in_range 32 126 c then [c]
  else if c =? 10 then [92; 110]
  else if c =? 13 then [92; 114]
  else if c =? 9 then [92; 116]
  else if c =? 8 then [92; 98]
  else if c =? 12 then [92; 102]
  else if c <? 65536 then u_escape c
  else u_escape (55296 + (c - 65536) / 1024 mod 1024)
       ++ u_escape (56320 + (c - 65536) mod 1024).

Definition encode_basestring_ascii (s : pystr) : pystr :=
  [34] ++ flat_map escape_char s ++ [34].

Definition int_repr (z : Z) : pystr := lit (NilZero.string_of_int (Z.to_int z)).

(** ** [float] and its [repr] *)

(** A double.  [DFinite s m e] is [m * 2 ^ e], negated when [s]: the
    mantissa is below 2^53 and, unless the exponent is the least one,
    -1074, at least 2^52; zero has mantissa and exponent 0. *)
Inductive double :=
| DFinite (negative : bool) (mantissa exponent : Z)
| DInf (negative : bool)
| DNaN.

Definition double_eqb (a b : double) : bool :=
  match a, b with
  | DFinite s m e, DFinite s' m' e' =>
      Bool.eqb s s' && (m =? m')%Z && (e =? e')%Z
  | DInf s, DInf s' => Bool.eqb s s'
  | DNaN, DNaN => true
  | _, _ => false
  end.

(** Positive rationals as fractions: [m * 2 ^ e], [c * 10 ^ s], their
    order and their quotient. *)
Definition frac2 (m e : Z) : Z * Z :=
  (if 0 <=? e then (m * 2 ^ e, 1) else (m, 2 ^ (- e)))%Z.

Definition frac10 (c s : Z) : Z * Z :=
  (if 0 <=? s then (c * 10 ^ s, 1) else (c, 10 ^ (- s)))%Z.

Definition frac_compare (a b : Z * Z) : comparison :=
  (fst a * snd b ?= fst b * snd a)%Z.

Definition frac_div (a b : Z * Z) : Z * Z :=
  (fst a * snd b, snd a * fst b)%Z.

(** The integer nearest to a fraction, the even one of two. *)
Definition round_half_even (a : Z * Z) : Z :=
  (let q := fst a / snd a in
   match 2 * (fst a mod snd a) ?= snd a with
   | Lt => q
   | Gt => q + 1
   | Eq => if Z.even q then q else q + 1
   end)%Z.

(** [float] of the decimal [c * 10 ^ s], rounded to the nearest double,
    to the even mantissa of two; beyond the largest double an infinity. *)
Definition to_double (negative : bool) (c s : Z) : double :=
  (if c =? 0 then DFinite negative 0 0
   else
     let v := frac10 c s in
     let l := Z.log2 (fst v) - Z.log2 (snd v) in
     let k := match frac_compare v (frac2 1 l) with
              | Lt => l - 1
              | _ => l
              end in
     let e := Z.max (k - 52) (-1074) in
     let m := round_half_even (frac_div v (frac2 1 e)) in
     if m =? 0 then DFinite negative 0 0
     else
       let (m, e) := if m =? 2 ^ 53 then (2 ^ 52, e + 1) else (m, e) in
       if 971 <? e then DInf negative else DFinite negative m e)%Z.

(** [float] of the text of a JSON number, or of one of the three names
    [json.loads] accepts. *)
Definition float_of_literal (s : pystr) : double :=
  if pystr_eqb s (lit "NaN") then DNaN
  else if pystr_eqb s (lit "Infinity") then DInf false
  else if pystr_eqb s (lit "-Infinity") then DInf true
  else
    let (neg, s1) :=
      match s with
      | c :: r => if c =? 45 then (true, r) else (false, s)
      | [] => (false, s)
      end in
    let (ip, s2) := span_digits s1 in
    let (fr, s3) :=
      match s2 with
      | c :: r => if c =? 46 then span_digits r else ([], s2)
      | [] => ([], s2)
      end in
    let ex :=
      match s3 with
      | c :: r =>
          if (c =? 101) || (c =? 69) then
            match r with
            | g :: r1 =>
                if g =? 45 then (- digits_value (fst (span_digits r1)))%Z
                else if g =? 43 then digits_value (fst (span_digits r1))
                else digits_value (fst (span_digits r))
            | [] => 0%Z
            end
          else 0%Z
      | [] => 0%Z
      end in
    to_double neg (digits_value (ip ++ fr)) (ex - Z.of_nat (List.length fr)).

(** The place of the decimal point: the least [d] with [v < 10 ^ d],
    looked for around the estimate the binary logarithm gives. *)
Definition decimal_point (v : Z * Z) : Z :=
  (let l := Z.log2 (fst v) - Z.log2 (snd v) in
   let est := l * 30103 / 100000 - 1 in
   match find (fun d => match frac_compare v (frac10 1 d) with
                        | Lt => true
                        | _ => false
                        end)
              [est; est + 1; est + 2; est + 3; est + 4] with
   | Some d => d
   | None => est + 4
   end)%Z.

(** The decimal of [n] digits that reads back as the double [m * 2 ^ e]:
    of the two around the value the one that does, the nearer one when both
    do, the even one when they are as near. *)
Definition digits_of_length (m e : Z) (dp : Z) (n : Z) : option Z :=
  (let v := frac2 m e in
   let scale := frac10 1 (dp - n) in
   let lo := fst (frac_div v scale) / snd (frac_div v scale) in
   let reads c := double_eqb (to_double false c (dp - n)) (DFinite false m e) in
   match reads lo, reads (lo + 1) with
   | true, false => Some lo
   | false, true => Some (lo + 1)
   | false, false => None
   | true, true =>
       match frac_compare (frac_div (fst v * 2, snd v) scale)
                          (2 * lo + 1, 1) with
       | Lt => Some lo
       | Gt => Some (lo + 1)
       | Eq => Some (if Z.even lo then lo else lo + 1)
       end
   end)%Z.

(** The shortest decimal that reads back as the double; 17 digits always
    do. *)
Definition shortest_digits (m e : Z) (dp : Z) : Z * Z :=
  (let fix search (ns : list Z) : Z * Z :=
     match ns with
     | [] => (fst (frac_div (frac2 m e) (frac10 1 (dp - 17)))
              / snd (frac_div (frac2 m e) (frac10 1 (dp - 17))), 17)
     | n :: ns' =>
         match digits_of_length m e dp n with
         | Some c => (c, n)
         | None => search ns'
         end
     end in
   search [1; 2; 3; 4; 5; 6; 7; 8; 9; 10; 11; 12; 13; 14; 15; 16; 17])%Z.

Fixpoint strip_zeros (rev_digits : pystr) : pystr :=
  match rev_digits with
  | c :: r => if c =? 48 then strip_zeros r else rev_digits
  | [] => []
  end.

(** The text of a positive double from its digits and the place of the
    point: with an exponent when the point is at -4 or before, or after
    16; a [.0] is added to digits that have no fraction. *)
Definition format_digits (ds : pystr) (point : Z) : pystr :=
  (let n := Z.of_nat (List.length ds) in
   if (point <=? -4) || (16 <? point) then
     let ex := point - 1 in
     let exd := int_repr (Z.abs ex) in
     firstn 1 ds
     ++ (match skipn 1 ds with [] => [] | tail => 46%N :: tail end)
     ++ [101%N; if ex <? 0 then 45%N else 43%N]
     ++ (match exd with [d] => [48%N; d] | _ => exd end)
   else if point <=? 0 then
     [48%N; 46%N] ++ repeat 48%N (Z.to_nat (- point)) ++ ds
   else if n <=? point then
     ds ++ repeat 48%N (Z.to_nat (point - n)) ++ [46%N; 48%N]
   else
     firstn (Z.to_nat point) ds ++ 46%N :: skipn (Z.to_nat point) ds)%Z.

(** What [json.dumps] writes for a float: [float.__repr__], and the three
    names for the values that are not finite. *)
Definition float_repr (d : double) : pystr :=
  match d with
  | DNaN => lit "NaN"
  | DInf false => lit "Infinity"
  | DInf true => lit "-Infinity"
  | DFinite s m e =>
      (if s then [45%N] else [])
      ++ (if (m =? 0)%Z then lit "0.0"
          else
            let dp := decimal_point (frac2 m e) in
            let (c, n) := shortest_digits m e dp in
            let all := int_repr c in
            format_digits (rev (strip_zeros (rev all)))
                          (Z.of_nat (List.length all) + dp - n))
  end.

(** ** [json.dumps] of a value *)

(** [json.dumps(v)] with the default separators and [ensure_ascii]. *)
Fixpoint json_dumps (v : value) : pystr :=
  match v with
  | VNone => lit "null"
  | VBool true => lit "true"
  | VBool false => lit "false"
  | VInt z => int_repr z
  | VFloat literal => float_repr (float_of_literal literal)
  | VStr s => encode_basestring_ascii s
  | VList xs =>
      let fix elements (xs : list value) : pystr :=
        match xs with
        | [] => []
        | [x] => json_dumps x
        | x :: xs' => json_dumps x ++ lit ", " ++ elements xs'
        end in
      [91] ++ elements xs ++ [93]
  | VDict items =>
      let member (k : pystr) (x : value) : pystr :=
        encode_basestring_ascii k ++ lit ": " ++ json_dumps x in
      let fix members (items : list (pystr * value)) : pystr :=
        match items with
        | [] => []
        | [(k, x)] => member k x
        | (k, x) :: items' => member k x ++ lit ", " ++ members items'
        end in
      [123] ++ members items ++ [125]
  end.

(** ** Exceptions and HTTP *)

Local Open Scope Z_scope.

Inductive http_method := GET | POST.

(** An outgoing call: [requests.post] or [session.get]. *)
Record HttpRequest := {
  req_method : http_method;
  req_url : pystr;
  req_headers : list (pystr * pystr);
  req_json : option value;
  req_stream : bool;
  req_verify : bool
}.

(** What the upstream API answered: the status, the body as text (for
    [response.json()] and [response.text]) and the body as
    [response.iter_lines()] hands it out. *)
Record Response := {
  status_code : Z;
  text : pystr;
  iter_lines : list pybytes
}.

(** The exceptions the router meets, and the texts it answers with.  A
    [message] is the [detail] of an [HTTPException] or the [message] field
    of an answer: each constructor stands for one fixed text of the source,
    with the values formatted into it. *)
Inductive exn :=
| IndexError
| TypeError
| KeyError
| AttributeError
| UnicodeDecodeError
| UnboundLocalError
| JSONDecodeError                      (* json.JSONDecodeError *)
| HTTPError (response : Response)      (* requests: raise_for_status *)
| RequestException                     (* requests: any other failure *)
| ClientError                          (* aiohttp *)
| OSError                              (* open, read, write *)
| HTTPException (status : Z) (detail : message)
with message :=
| KeyNotConfigured                     (* the key is set neither in the file nor in the environment *)
| UseStreamEndpoint                    (* streaming goes through /deepseek/stream *)
| ApiCallFailed (e : exn) (error_detail : option pystr)
| NoConfiguredKey                      (* 401: no DeepSeek key configured *)
| UpstreamRequestFailed (error_msg : pystr)
| RequestError (e : exn)               (* an aiohttp.ClientError *)
| ListModelsError (e : exn)
| BalanceError (e : exn)
| CheckKeyError (e : exn)
| SetKeyError (e : exn)
| KeyNotSet
| KeyInvalid (error_msg : value)
| KeyValid
| KeyNetworkError (e : exn)
| KeySaved                             (* updated and saved to the file *)
| KeySaveFailed (e : exn).             (* saving to the file failed *)

Inductive result (A : Type) :=
| Ok (a : A)
| Raise (e : exn).
Arguments Ok {A} a.
Arguments Raise {A} e.

Definition bind {A B} (m : result A) (k : A -> result B) : result B :=
  match m with
  | Ok a => k a
  | Raise e => Raise e
  end.

Notation "x <- m ;; k" := (bind m (fun x => k))
  (at level 61, m at next level, right associativity).

(** [except requests.exceptions.RequestException]: [HTTPError] is one. *)
Definition is_RequestException (e : exn) : bool :=
  match e with
  | HTTPError _ | RequestException => true
  | _ => false
  end.

(** [response.raise_for_status()] *)
Definition raise_for_status (response : Response) : result unit :=
  if (400 <=? status_code response) && (status_code response <? 600)
  then Raise (HTTPError response)
  else Ok tt.

(** ** Python operations on the objects of [json.loads] *)

(** [obj.get(key, default)]: only a [dict] has the method. *)
Definition py_get (obj : value) (key : pystr) (default : value) : result value :=
  match obj with
  | VDict d =>
      Ok (match lookup d key with Some v => v | None => default end)
  | _ => Raise AttributeError
  end.

(** [obj[0]]: the first item of a list or of a string; a dict of JSON has
    string keys only, so the key [0] is never in it. *)
Definition py_item0 (obj : value) : result value :=
  match obj with
  | VList (x :: _) => Ok x
  | VList [] => Raise IndexError
  | VStr (c :: _) => Ok (VStr [c])
  | VStr [] => Raise IndexError
  | VDict _ => Raise KeyError
  | VNone | VBool _ | VInt _ | VFloat _ => Raise TypeError
  end.

(** [json.loads] as the source calls it. *)
Definition loads (s : pystr) : result value :=
  match json_loads s with
  | Some v => Ok v
  | None => Raise JSONDecodeError
  end.

(** ** The streaming relay: [generate] *)

(** The dict handed to [json.dumps] at a [yield]. *)
Record event := {
  content : value;
  finish_reason : value
}.

Definition event_dict (e : event) : value :=
  VDict [(lit "content", content e); (lit "finish_reason", finish_reason e)].

(** The yielded text [f"data: {json.dumps(...)}\n\n"]. *)
Definition sse_frame (e : event) : pystr :=
  lit "data: " ++ json_dumps (event_dict e) ++ [10%N; 10%N].

(** The event of the sentinel. *)
Definition stop_event : event :=
  {| content := VStr []; finish_reason := VStr (lit "stop") |}.

(** The event of a payload that is not JSON; the content is the marker text,
    an opening bracket, U+89E3, U+6790, U+9519, U+8BEF, a closing bracket. *)
Definition parse_error_event : event :=
  {| content := VStr [91; 35299; 26512; 38169; 35823; 93]%N;
     finish_reason := VNone |}.

(** Lines 383 to 386: the fields of the event, read off the decoded chunk. *)
Definition extract (data : value) : result event :=
  choices <- py_get data (lit "choices") (VList [VDict []]) ;;
  choice <- py_item0 choices ;;
  delta <- py_get choice (lit "delta") (VDict []) ;;
  content <- py_get delta (lit "content") (VStr []) ;;
  choices' <- py_get data (lit "choices") (VList [VDict []]) ;;
  choice' <- py_item0 choices' ;;
  finish_reason <- py_get choice' (lit "finish_reason") VNone ;;
  Ok {| content := content; finish_reason := finish_reason |}.

(** The body of the [try] statement. *)
Definition try_block (data_str : pystr) : result event :=
  data <- loads data_str ;;
  extract data.

(** What one turn of the [for] loop does. *)
Inductive step :=
| Skip                       (* nothing is yielded, the loop goes on *)
| Emit (e : event)           (* one yield, the loop goes on *)
| EmitBreak (e : event)      (* one yield, then [break] *)
| Fail (x : exn).            (* an exception leaves the generator *)

Definition loop_body (line : pybytes) : step :=
  match line with
  | [] => Skip
  | _ :: _ =>
      match decode line with
      | None => Fail UnicodeDecodeError
      | Some line_str =>
          if startswith (lit "data: ") line_str then
            let data_str := skipn 6 line_str in
            if pystr_eqb data_str (lit "[DONE]") then EmitBreak stop_event
            else
              match try_block data_str with
              | Ok e => Emit e
              | Raise JSONDecodeError => Emit parse_error_event
              | Raise x => Fail x
              end
          else Skip
      end
  end.

(** How a run of the generator ends. *)
Inductive ending :=
| Returned
| Raised (x : exn).

(** A run: the events yielded in order, the ending, and the lines of the
    upstream body that were never read. *)
Record run := {
  emitted : list event;
  outcome : ending;
  unread : list pybytes
}.

Definition yield_then (e : event) (r : run) : run :=
  {| emitted := e :: emitted r; outcome := outcome r; unread := unread r |}.

(** [for line in response.iter_lines(): ...] *)
Fixpoint for_lines (lines : list pybytes) : run :=
  match lines with
  | [] => {| emitted := []; outcome := Returned; unread := [] |}
  | line :: rest =>
      match loop_body line with
      | Skip => for_lines rest
      | Emit e => yield_then e (for_lines rest)
      | EmitBreak e => {| emitted := [e]; outcome := Returned; unread := rest |}
      | Fail x => {| emitted := []; outcome := Raised x; unread := rest |}
      end
  end.

(** The body of the [with] statement, once the response is there. *)
Definition relay (response : Response) : run :=
  match raise_for_status response with
  | Raise x =>
      {| emitted := []; outcome := Raised x; unread := iter_lines response |}
  | Ok _ => for_lines (iter_lines response)
  end.

(** The free variables of [generate]: [url] and [headers] of the handler.
    [data] is not one of them: the loop assigns [data] (line 382) and there
    is no [nonlocal] declaration, so every [data] in the generator is the
    generator's own local. *)
Record Closure := {
  url : pystr;
  headers : list (pystr * pystr)
}.

(** The local [data] of a generator that has just been started. *)
Definition data_at_start : option value := None.

(** Reading a local variable. *)
Definition read_local (v : option value) : result value :=
  match v with
  | Some x => Ok x
  | None => Raise UnboundLocalError
  end.

(** The generator started with its local [data] as given and run to its end
    against the answer [upstream] gives to its call.  The arguments of
    [requests.post] are evaluated before the call is made; [verify] is the
    global [SSL_VERIFY]. *)
Definition generate_from (data : option value) (verify : bool) (c : Closure)
    (upstream : HttpRequest -> result Response) : list HttpRequest * run :=
  match read_local data with
  | Raise x => ([], {| emitted := []; outcome := Raised x; unread := [] |})
  | Ok json =>
      let call := {| req_method := POST; req_url := url c;
                     req_headers := headers c; req_json := Some json;
                     req_stream := true; req_verify := verify |} in
      ([call],
       match upstream call with
       | Raise x => {| emitted := []; outcome := Raised x; unread := [] |}
       | Ok response => relay response
       end)
  end.

(** [generate()], advanced until it ends: the calls it made and its run. *)
Definition generate : bool -> Closure -> (HttpRequest -> result Response)
                      -> list HttpRequest * run :=
  generate_from data_at_start.

(** ** Module state *)

Record Settings := {
  set_temperature : option value;
  set_max_tokens : option value
}.

(** The [deepseek] section of [config.yaml]; [None] is an absent key. *)
Record DeepseekConfig := {
  api_key : option pystr;
  api_base : option pystr;
  default_model : option pystr;
  ssl_verify : option bool;
  default_settings : Settings
}.

Definition empty_section : DeepseekConfig :=
  {| api_key := None; api_base := None; default_model := None;
     ssl_verify := None;
     default_settings := {| set_temperature := None; set_max_tokens := None |} |}.

(** What [load_config()] returns; [{}] when the file cannot be read. *)
Record Config := { deepseek : option DeepseekConfig }.

(** [config.get('deepseek', {})] *)
Definition get_deepseek (c : Config) : DeepseekConfig :=
  match deepseek c with
  | Some section => section
  | None => empty_section
  end.

Definition get_or {A} (field : option A) (default : A) : A :=
  match field with
  | Some a => a
  | None => default
  end.

(** The truth value of a [str]. *)
Definition truthy (s : pystr) : bool :=
  match s with
  | [] => false
  | _ :: _ => true
  end.

(** The module globals.  [API_KEY] and [config] are rebound by
    [set_api_key]; the others keep their value from import time. *)
Record Globals := {
  config : Config;
  deepseek_config : DeepseekConfig;
  API_KEY : pystr;
  API_BASE : pystr;
  DEFAULT_MODEL : pystr;
  SSL_VERIFY : bool
}.

(** The module body: [environ] is [DEEPSEEK_API_KEY] in the environment and
    [loaded] the result of [load_config()]. *)
Definition import_module (environ : option pystr) (loaded : Config) : Globals :=
  let deepseek_config := get_deepseek loaded in
  {| config := loaded;
     deepseek_config := deepseek_config;
     API_KEY := get_or environ (get_or (api_key deepseek_config) []);
     API_BASE :=
       get_or (api_base deepseek_config) (lit "https://api.deepseek.com/v1");
     DEFAULT_MODEL := get_or (default_model deepseek_config) (lit "deepseek-chat");
     SSL_VERIFY := get_or (ssl_verify deepseek_config) false |}.

(** ** Handlers: state, calls and exceptions *)

(** The process as a handler sees it: the globals and the calls sent to the
    upstream API so far. *)
Record World := {
  globals : Globals;
  sent : list HttpRequest
}.

(** A handler changes the world and returns or raises; an exception does not
    undo what was done before it. *)
Definition M (A : Type) : Type := World -> World * result A.

Definition ret {A} (a : A) : M A := fun w => (w, Ok a).
Definition raise {A} (e : exn) : M A := fun w => (w, Raise e).
Definition lift {A} (r : result A) : M A := fun w => (w, r).

Definition mbind {A B} (m : M A) (k : A -> M B) : M B :=
  fun w =>
    match m w with
    | (w', Ok a) => k a w'
    | (w', Raise e) => (w', Raise e)
    end.

Notation "'let*' x ':=' m 'in' k" := (mbind m (fun x => k))
  (at level 10, x name, m at level 100, k at level 200).

(** [try: body / except ...: handler] *)
Definition try_except {A} (body : M A) (handler : exn -> M A) : M A :=
  fun w =>
    match body w with
    | (w', Raise e) => handler e w'
    | done => done
    end.

Definition read_globals : M Globals := fun w => (w, Ok (globals w)).

Definition write_globals (g : Globals) : M unit :=
  fun w => ({| globals := g; sent := sent w |}, Ok tt).

(** One call to the upstream API, answered by [upstream]. *)
Definition send (upstream : HttpRequest -> result Response)
    (request : HttpRequest) : M Response :=
  fun w => ({| globals := globals w; sent := sent w ++ [request] |},
            upstream request).

Definition auth_headers (key : pystr) : list (pystr * pystr) :=
  [(lit "Authorization", lit "Bearer " ++ key);
   (lit "Content-Type", lit "application/json")].

(** The value of a header of a call. *)
Fixpoint header (name : pystr) (headers : list (pystr * pystr)) : option pystr :=
  match headers with
  | [] => None
  | (k, v) :: rest => if pystr_eqb k name then Some v else header name rest
  end.

(** ** Requests *)

Record ChatMessage := {
  role : pystr;
  msg_content : pystr            (* the field [content] *)
}.

Record ChatRequest := {
  messages : list ChatMessage;
  model : option pystr;
  temperature : option value;
  max_tokens : option Z;
  top_p : option value;
  stream : option bool;
  json_mode : option bool
}.

(** The truth value of an [Optional[bool]]. *)
Definition is_true (b : option bool) : bool :=
  match b with
  | Some true => true
  | _ => false
  end.

(** [request.model or DEFAULT_MODEL] *)
Definition model_or (m : option pystr) (default : pystr) : pystr :=
  match m with
  | Some name => if truthy name then name else default
  | None => default
  end.

(** The dict [data] of both chat handlers; [streaming] adds the key
    [stream]. *)
Definition request_data (g : Globals) (request : ChatRequest)
    (streaming : bool) : value :=
  let default_settings := default_settings (deepseek_config g) in
  let data :=
    [(lit "model", VStr (model_or (model request) (DEFAULT_MODEL g)));
     (lit "messages",
      VList (map (fun msg => VDict [(lit "role", VStr (role msg));
                                    (lit "content", VStr (msg_content msg))])
                 (messages request)));
     (lit "temperature",
      match temperature request with
      | Some t => t
      | None => get_or (set_temperature default_settings) (VFloat (lit "1.0"))
      end);
     (lit "max_tokens",
      match max_tokens request with
      | Some n => VInt n
      | None => get_or (set_max_tokens default_settings) (VInt 1000)
      end)]
    ++ (if streaming then [(lit "stream", VBool true)] else []) in
  let data :=
    match top_p request with
    | Some p => dict_set data (lit "top_p") p
    | None => data
    end in
  let data :=
    if is_true (json_mode request)
    then dict_set data (lit "response_format")
                  (VDict [(lit "type", VStr (lit "json_object"))])
    else data in
  VDict data.

(** [response.json()] of [requests]: a body that is not JSON raises the
    [JSONDecodeError] of [requests], a [RequestException]. *)
Definition response_json (response : Response) : result value :=
  match json_loads (text response) with
  | Some v => Ok v
  | None => Raise RequestException
  end.

(** [hasattr(e, 'response') and e.response], then [e.response.text]: a
    response is true when its status is below 400. *)
Definition error_detail (e : exn) : option pystr :=
  match e with
  | HTTPError response =>
      match raise_for_status response with
      | Ok _ => Some (text response)
      | Raise _ => None
      end
  | _ => None
  end.

(** The [except requests.exceptions.RequestException] clause of both chat
    handlers. *)
Definition except_RequestException {A} (e : exn) : M A :=
  if is_RequestException e
  then raise (HTTPException 500 (ApiCallFailed e (error_detail e)))
  else raise e.

(** The answer of [/chat] with the task handed to [background_tasks]. *)
Record ChatResult := {
  chat_body : value;
  log_api_call : pystr * value * value
}.

Definition chat_completion (request : ChatRequest)
    (upstream : HttpRequest -> result Response) : M ChatResult :=
  let* g := read_globals in
  if negb (truthy (API_KEY g)) then raise (HTTPException 500 KeyNotConfigured)
  else
    let url := API_BASE g ++ lit "/chat/completions" in
    let headers := auth_headers (API_KEY g) in
    let data := request_data g request false in
    if is_true (stream request) then raise (HTTPException 400 UseStreamEndpoint)
    else
      try_except
        (let* response :=
           send upstream {| req_method := POST; req_url := url;
                            req_headers := headers; req_json := Some data;
                            req_stream := false; req_verify := SSL_VERIFY g |} in
         let* _ := lift (raise_for_status response) in
         let* result := lift (response_json response) in
         lift (
           choices <- py_get result (lit "choices") (VList [VDict []]) ;;
           choice <- py_item0 choices ;;
           message <- py_get choice (lit "message") (VDict []) ;;
           content <- py_get message (lit "content") (VStr []) ;;
           choices' <- py_get result (lit "choices") (VList [VDict []]) ;;
           choice' <- py_item0 choices' ;;
           finish_reason <- py_get choice' (lit "finish_reason") VNone ;;
           usage <- py_get result (lit "usage") (VDict []) ;;
           prompt_tokens <- py_get usage (lit "prompt_tokens") (VInt 0) ;;
           completion_tokens <- py_get usage (lit "completion_tokens") (VInt 0) ;;
           total_tokens <- py_get usage (lit "total_tokens") (VInt 0) ;;
           prompt_tokens_details <-
             py_get usage (lit "prompt_tokens_details")
                    (VDict [(lit "cached_tokens", VInt 0)]) ;;
           let model_name := model_or (model request) (DEFAULT_MODEL g) in
           Ok {| chat_body :=
                   VDict [(lit "content", content);
                          (lit "model", VStr model_name);
                          (lit "usage",
                           VDict [(lit "prompt_tokens", prompt_tokens);
                                  (lit "completion_tokens", completion_tokens);
                                  (lit "total_tokens", total_tokens);
                                  (lit "prompt_tokens_details",
                                   prompt_tokens_details)]);
                          (lit "finish_reason", finish_reason)];
                 log_api_call := (model_name, prompt_tokens, completion_tokens) |}))
        except_RequestException.

(** [StreamingResponse(generate(), media_type=...)]: the status is the
    default one, and the body is the generator, created and not yet
    started. *)
Record StreamingResponse := {
  response_status : Z;
  media_type : pystr;
  body_iterator : Closure
}.

(** [request.stream = True] changes the request object only; the key
    [stream] of [data] is set by the literal.  The [try] statement encloses
    the definition of the generator and the construction of the response,
    which run none of the generator's body. *)
Definition stream_completion (request : ChatRequest) : M StreamingResponse :=
  let* g := read_globals in
  if negb (truthy (API_KEY g)) then raise (HTTPException 500 KeyNotConfigured)
  else
    let url := API_BASE g ++ lit "/chat/completions" in
    let headers := auth_headers (API_KEY g) in
    let data := request_data g request true in
    try_except
      (ret {| response_status := 200;
              media_type := lit "text/event-stream";
              body_iterator := {| url := url; headers := headers |} |})
      except_RequestException.

(** The body of a streaming response consumed to its end, in the world the
    generator runs in. *)
Definition stream_body (r : StreamingResponse)
    (upstream : HttpRequest -> result Response) (w : World) : World * run :=
  let (calls, r) :=
    generate (SSL_VERIFY (globals w)) (body_iterator r) upstream in
  ({| globals := globals w; sent := sent w ++ calls |}, r).

(** ** The account handlers *)

Definition default_api_base : pystr := lit "https://api.deepseek.com/v1".

(** [config.get('deepseek', {}).get('api_base', ...)] *)
Definition config_api_base (g : Globals) : pystr :=
  get_or (api_base (get_deepseek (config g))) default_api_base.

(** [session.get(url, headers=...)] *)
Definition get_call (g : Globals) (url : pystr) (key : pystr) : HttpRequest :=
  {| req_method := GET; req_url := url; req_headers := auth_headers key;
     req_json := None; req_stream := false; req_verify := SSL_VERIFY g |}.

(** The two [except] clauses that close every account handler: an
    [HTTPException] raised in the [try] body is an [Exception] too. *)
Definition except_ClientError {A} (other : exn -> message) (e : exn) : M A :=
  match e with
  | ClientError => raise (HTTPException 500 (RequestError e))
  | _ => raise (HTTPException 500 (other e))
  end.

(** The [try] body shared by [list_models] and [get_user_balance], up to the
    answer of the upstream API; the mapping of a 200 answer into the
    response model is not followed.  The key is read from the configuration
    file alone; an absent key and an empty one are both false. *)
Definition account_query (path : pystr)
    (upstream : HttpRequest -> result Response) : M Response :=
  let* g := read_globals in
  let api_key := get_or (api_key (get_deepseek (config g))) [] in
  if negb (truthy api_key) then raise (HTTPException 401 NoConfiguredKey)
  else
    let api_base := config_api_base g in
    let* response := send upstream (get_call g (api_base ++ path) api_key) in
    if negb (status_code response =? 200)
    then raise (HTTPException (status_code response)
                              (UpstreamRequestFailed (text response)))
    else ret response.

Definition list_models (upstream : HttpRequest -> result Response) : M Response :=
  try_except (account_query (lit "/models") upstream)
             (except_ClientError ListModelsError).

Definition get_user_balance (upstream : HttpRequest -> result Response)
  : M Response :=
  try_except (account_query (lit "/user/balance") upstream)
             (except_ClientError BalanceError).

(** The message of a rejected key: [error.message] of the body when the body
    is a JSON object with an object [error] that has it, the body itself
    otherwise (the bare [except] swallows every failure on the way). *)
Definition upstream_error_message (error_msg : pystr) : value :=
  match json_loads error_msg with
  | Some (VDict error_data) =>
      match lookup error_data (lit "error") with
      | Some (VDict error) =>
          match lookup error (lit "message") with
          | Some m => m
          | None => VStr error_msg
          end
      | _ => VStr error_msg
      end
  | _ => VStr error_msg
  end.

Record ApiKeyStatusResponse := {
  is_set : bool;
  is_valid : bool;
  status_message : message
}.

Definition check_api_key (upstream : HttpRequest -> result Response)
  : M ApiKeyStatusResponse :=
  try_except
    (let* g := read_globals in
     let api_key :=
       if truthy (API_KEY g) then API_KEY g
       else get_or (api_key (get_deepseek (config g))) [] in
     if negb (truthy api_key)
     then ret {| is_set := false; is_valid := false; status_message := KeyNotSet |}
     else
       let test_url := config_api_base g ++ lit "/models" in
       let* response := send upstream (get_call g test_url api_key) in
       if negb (status_code response =? 200)
       then ret {| is_set := true; is_valid := false;
                   status_message :=
                     KeyInvalid (upstream_error_message (text response)) |}
       else ret {| is_set := true; is_valid := true; status_message := KeyValid |})
    (fun e =>
       match e with
       | ClientError =>
           ret {| is_set := true; is_valid := false;
                  status_message := KeyNetworkError e |}
       | _ => raise (HTTPException 500 (CheckKeyError e))
       end).

Record ApiKeyRequest := {
  request_api_key : pystr        (* the field [api_key] *)
}.

Record ApiKeyResponse := {
  success : bool;
  message_text : message         (* the field [message] *)
}.

(** The configuration file as [set_api_key] meets it: what reading it gives,
    whether writing it succeeds, and what [load_config()] returns after the
    write.  The text written is [update_yaml_field] of the text read; the
    model does not follow it. *)
Record Disk := {
  read_text : result pystr;
  write_text : result unit;
  load_config : Config
}.

Definition set_API_KEY (key : pystr) (g : Globals) : Globals :=
  {| config := config g; deepseek_config := deepseek_config g;
     API_KEY := key; API_BASE := API_BASE g;
     DEFAULT_MODEL := DEFAULT_MODEL g; SSL_VERIFY := SSL_VERIFY g |}.

Definition set_config (c : Config) (g : Globals) : Globals :=
  {| config := c; deepseek_config := deepseek_config g;
     API_KEY := API_KEY g; API_BASE := API_BASE g;
     DEFAULT_MODEL := DEFAULT_MODEL g; SSL_VERIFY := SSL_VERIFY g |}.

(** An assignment to a global. *)
Definition assign (update : Globals -> Globals) : M unit :=
  let* g := read_globals in write_globals (update g).

Definition set_api_key (request : ApiKeyRequest)
    (upstream : HttpRequest -> result Response) (disk : Disk)
  : M ApiKeyResponse :=
  try_except
    (let* g := read_globals in
     let test_url := config_api_base g ++ lit "/models" in
     let* response :=
       send upstream (get_call g test_url (request_api_key request)) in
     if negb (status_code response =? 200)
     then ret {| success := false;
                 message_text :=
                   KeyInvalid (upstream_error_message (text response)) |}
     else
       let* _ := assign (set_API_KEY (request_api_key request)) in
       try_except
         (let* content := lift (read_text disk) in
          let* _ := lift (write_text disk) in
          let* _ := assign (set_config (load_config disk)) in
          ret {| success := true; message_text := KeySaved |})
         (fun e => ret {| success := false; message_text := KeySaveFailed e |}))
    (except_ClientError SetKeyError).

(** ** The relay as the specification words it *)

(** The payload of a data frame: the text after the prefix [data: ] of a
    line that has it. *)
Definition payload (line : pybytes) : option pystr :=
  match decode line with
  | Some s => if startswith (lit "data: ") s then Some (skipn 6 s) else None
  | None => None
  end.

Definition is_data_frame (line : pybytes) : bool :=
  match payload line with
  | Some _ => true
  | None => false
  end.

Definition is_sentinel (p : pystr) : bool := pystr_eqb p (lit "[DONE]").

(** [choices[0]] of a chunk: an object that has no [choices] counts as one
    empty choice; otherwise [choices] has to be a list that starts with an
    object. *)
Definition first_choice (chunk : value) : option dict :=
  match chunk with
  | VDict d =>
      match lookup d (lit "choices") with
      | None => Some []
      | Some (VList (VDict choice :: _)) => Some choice
      | Some _ => None
      end
  | _ => None
  end.

(** [delta] of a choice: absent counts as empty; otherwise an object. *)
Definition delta_of (choice : dict) : option dict :=
  match lookup choice (lit "delta") with
  | None => Some []
  | Some (VDict delta) => Some delta
  | Some _ => None
  end.

(** The normalized event of a chunk that has a first choice and a delta:
    [choices[0].delta.content], the empty string when absent, and
    [choices[0].finish_reason], null when absent. *)
Definition normalized (chunk : value) : option event :=
  match first_choice chunk with
  | Some choice =>
      match delta_of choice with
      | Some delta =>
          Some {| content := get_or (lookup delta (lit "content")) (VStr []);
                  finish_reason :=
                    get_or (lookup choice (lit "finish_reason")) VNone |}
      | None => None
      end
  | None => None
  end.

(** The event the specification assigns to a line: none to a line that is
    not a data frame, the marker to a payload that is not JSON. *)
Definition frame_event (line : pybytes) : option event :=
  match payload line with
  | None => None
  | Some p =>
      match json_loads p with
      | None => Some parse_error_event
      | Some chunk => normalized chunk
      end
  end.

(** A line the relay passes over or answers with one event: a blank line,
    or UTF-8 text that is either not a data frame or a data frame, not the
    sentinel, whose payload is not JSON or is a chunk with a first choice
    and a delta. *)
Definition relayable (line : pybytes) : bool :=
  match line with
  | [] => true
  | _ :: _ =>
      match decode line with
      | None => false
      | Some s =>
          if startswith (lit "data: ") s then
            negb (is_sentinel (skipn 6 s))
            && match json_loads (skipn 6 s) with
               | None => true
               | Some chunk =>
                   match normalized chunk with Some _ => true | None => false end
               end
          else true
      end
  end.

(** A well-formed line: relayable, and a payload is JSON. *)
Definition well_formed (line : pybytes) : bool :=
  relayable line
  && match payload line with
     | Some p => match json_loads p with Some _ => true | None => false end
     | None => true
     end.

(** The events of the lines, in the order of the lines. *)
Definition expected_events (lines : list pybytes) : list event :=
  flat_map (fun line => match frame_event line with
                        | Some e => [e]
                        | None => []
                        end) lines.

Definition data_frames (lines : list pybytes) : list pybytes :=
  filter is_data_frame lines.

(** The sentinel line. *)
Definition done_line : pybytes := ascii_bytes (lit "data: [DONE]").

(** [events] yielded before the run [r]. *)
Definition yield_all (events : list event) (r : run) : run :=
  {| emitted := events ++ emitted r; outcome := outcome r; unread := unread r |}.

(** The exceptions of the extraction: those of a subscript and of a missing
    method. *)
Definition shape_errors : list exn :=
  [IndexError; TypeError; KeyError; AttributeError].

(** The configuration file could not be saved with [e]: reading it raised,
    or reading it went well and writing it raised. *)
Definition save_fails (disk : Disk) (e : exn) : Prop :=
  read_text disk = Raise e
  \/ (exists content, read_text disk = Ok content /\ write_text disk = Raise e).

(** ** Sample traffic *)

(** A data frame with the given JSON text, apostrophes standing for double
    quotes. *)
Definition frame (json : string) : pybytes :=
  ascii_bytes (lit "data: " ++ dq json).

Definition hi_line : pybytes :=
  frame "{'choices':[{'delta':{'content':'hi'},'finish_reason':null}]}".

Definition hi_event : event :=
  {| content := VStr (lit "hi"); finish_reason := VNone |}.

Definition bye_line : pybytes :=
  frame "{'choices':[{'delta':{'content':' bye'},'finish_reason':'length'}]}".

Definition bye_event : event :=
  {| content := VStr (lit " bye"); finish_reason := VStr (lit "length") |}.

Definition undecodable_line : pybytes := frame "{'choices': [".

Definition empty_choices_line : pybytes := frame "{'choices':[]}".

Definition comment_line : pybytes := ascii_bytes (lit ": keep-alive").

Definition file_config : Config :=
  {| deepseek :=
       Some {| api_key := Some (lit "sk-file"); api_base := None;
               default_model := None; ssl_verify := None;
               default_settings :=
                 {| set_temperature := None; set_max_tokens := None |} |} |}.

(** A process started with the key in the environment and another one in
    the file. *)
Definition env_world : World :=
  {| globals := import_module (Some (lit "sk-env")) file_config; sent := [] |}.

(** A process started with no key at all. *)
Definition bare_world : World :=
  {| globals := import_module None {| deepseek := None |}; sent := [] |}.

Definition hello_request : ChatRequest :=
  {| messages := [{| role := lit "user"; msg_content := lit "hello" |}];
     model := None; temperature := None; max_tokens := None; top_p := None;
     stream := Some false; json_mode := Some false |}.

(** An upstream API that answers every call with [response]. *)
Definition answering (response : Response) : HttpRequest -> result Response :=
  fun _ => Ok response.

Definition stream_answer : Response :=
  {| status_code := 200; text := [];
     iter_lines := [hi_line; []; bye_line; []; done_line] |}.

Definition unauthorized_answer : Response :=
  {| status_code := 401;
     text := dq "{'error':{'message':'Authentication Fails'}}";
     iter_lines := [ascii_bytes (dq "{'error':{'message':'Authentication Fails'}}")] |}.

Definition models_answer : Response :=
  {| status_code := 200; text := dq "{'object':'list','data':[]}";
     iter_lines := [] |}.

Definition read_only_disk : Disk :=
  {| read_text := Ok (lit "deepseek:"); write_text := Raise OSError;
     load_config := file_config |}.

Definition chat_answer : Response :=
  {| status_code := 200;
     text := dq "{'choices':[{'message':{'content':'hello!'},'finish_reason':'stop'}],'usage':{'prompt_tokens':3,'completion_tokens':2,'total_tokens':5}}";
     iter_lines := [] |}.

(** A process started with the key in the environment and none in the
    file. *)
Definition env_only_world : World :=
  {| globals := import_module (Some (lit "sk-env")) {| deepseek := None |};
     sent := [] |}.

(** The world after the calls [calls]. *)
Definition add_sent (w : World) (calls : list HttpRequest) : World :=
  {| globals := globals w; sent := sent w ++ calls |}.

(** A computation that changes no global and sends exactly [calls],
    whether it returns or raises. *)
Definition sends_only {A} (m : M A) (calls : list HttpRequest) : Prop :=
  forall w, fst (m w) = add_sent w calls.

(** The world after a validated key: the key is in [API_KEY], the one call
    of the validation has been sent. *)
Definition key_installed (w : World) (request : ApiKeyRequest) : World :=
  {| globals := set_API_KEY (request_api_key request) (globals w);
     sent := sent w
             ++ [get_call (globals w)
                          (config_api_base (globals w) ++ lit "/models")
                          (request_api_key request)] |}.

(** A scanner that, when it returns, leaves less text than it was given. *)
Definition consuming {A} (f : pystr -> option (A * pystr)) : Prop :=
  forall s a r, f s = Some (a, r) -> (List.length r < List.length s)%nat.

(** ** Lines of the upstream body *)

(** A line that [decode] accepts. *)
Definition is_utf8 (line : pybytes) : bool :=
  match decode line with
  | Some _ => true
  | None => false
  end.

(** A frame written without the space after the colon. *)
Definition frame_without_space : pybytes :=
  ascii_bytes (dq "data:{'choices':[]}").

(** A data frame in Latin-1: the byte E9 is not UTF-8. *)
Definition latin1_line : pybytes :=
  ascii_bytes (lit "data: caf") ++ [xe9].

(** ** The answers of [/chat] *)

(** The call of [/chat]. *)
Definition chat_call (g : Globals) (request : ChatRequest) : HttpRequest :=
  {| req_method := POST;
     req_url := API_BASE g ++ lit "/chat/completions";
     req_headers := auth_headers (API_KEY g);
     req_json := Some (request_data g request false);
     req_stream := false;
     req_verify := SSL_VERIFY g |}.

(** [message] of a choice: absent counts as empty; otherwise an object. *)
Definition message_of (choice : dict) : option dict :=
  match lookup choice (lit "message") with
  | None => Some []
  | Some (VDict message) => Some message
  | Some _ => None
  end.

(** [usage] of an answer: absent counts as empty; otherwise an object. *)
Definition usage_of (answer : value) : option dict :=
  match answer with
  | VDict d =>
      match lookup d (lit "usage") with
      | None => Some []
      | Some (VDict usage) => Some usage
      | Some _ => None
      end
  | _ => None
  end.

(** A status that [raise_for_status] lets through. *)
Definition passes_status (status : Z) : bool :=
  negb ((400 <=? status) && (status <? 600)).

(** The answer [/chat] builds from the first choice, its message and the
    usage block of the upstream answer. *)
Definition chat_result (g : Globals) (request : ChatRequest)
    (choice message usage : dict) : ChatResult :=
  let model_name := model_or (model request) (DEFAULT_MODEL g) in
  let prompt_tokens := get_or (lookup usage (lit "prompt_tokens")) (VInt 0) in
  let completion_tokens :=
    get_or (lookup usage (lit "completion_tokens")) (VInt 0) in
  {| chat_body :=
       VDict [(lit "content", get_or (lookup message (lit "content")) (VStr []));
              (lit "model", VStr model_name);
              (lit "usage",
               VDict [(lit "prompt_tokens", prompt_tokens);
                      (lit "completion_tokens", completion_tokens);
                      (lit "total_tokens",
                       get_or (lookup usage (lit "total_tokens")) (VInt 0));
                      (lit "prompt_tokens_details",
                       get_or (lookup usage (lit "prompt_tokens_details"))
                              (VDict [(lit "cached_tokens", VInt 0)]))]);
              (lit "finish_reason",
               get_or (lookup choice (lit "finish_reason")) VNone)];
     log_api_call := (model_name, prompt_tokens, completion_tokens) |}.

(** Lines 281 to 315: what [/chat] makes of the upstream answer. *)
Definition chat_reply (g : Globals) (request : ChatRequest)
    (response : Response) : result ChatResult :=
  _ <- raise_for_status response ;;
  result <- response_json response ;;
  choices <- py_get result (lit "choices") (VList [VDict []]) ;;
  choice <- py_item0 choices ;;
  message <- py_get choice (lit "message") (VDict []) ;;
  content <- py_get message (lit "content") (VStr []) ;;
  choices' <- py_get result (lit "choices") (VList [VDict []]) ;;
  choice' <- py_item0 choices' ;;
  finish_reason <- py_get choice' (lit "finish_reason") VNone ;;
  usage <- py_get result (lit "usage") (VDict []) ;;
  prompt_tokens <- py_get usage (lit "prompt_tokens") (VInt 0) ;;
  completion_tokens <- py_get usage (lit "completion_tokens") (VInt 0) ;;
  total_tokens <- py_get usage (lit "total_tokens") (VInt 0) ;;
  prompt_tokens_details <-
    py_get usage (lit "prompt_tokens_details")
           (VDict [(lit "cached_tokens", VInt 0)]) ;;
  let model_name := model_or (model request) (DEFAULT_MODEL g) in
  Ok {| chat_body :=
          VDict [(lit "content", content);
                 (lit "model", VStr model_name);
                 (lit "usage",
                  VDict [(lit "prompt_tokens", prompt_tokens);
                         (lit "completion_tokens", completion_tokens);
                         (lit "total_tokens", total_tokens);
                         (lit "prompt_tokens_details", prompt_tokens_details)]);
                 (lit "finish_reason", finish_reason)];
        log_api_call := (model_name, prompt_tokens, completion_tokens) |}.

(** The [except] clause of the chat handlers, on a result. *)
Definition caught_RequestException {A} (r : result A) : result A :=
  match r with
  | Ok a => Ok a
  | Raise e =>
      if is_RequestException e
      then Raise (HTTPException 500 (ApiCallFailed e (error_detail e)))
      else Raise e
  end.

Definition empty_choices_answer : Response :=
  {| status_code := 200; text := dq "{'choices':[]}"; iter_lines := [] |}.

(** ** The calls of the account handlers *)

(** The call that tries a key against [/models]. *)
Definition models_call (g : Globals) (key : pystr) : HttpRequest :=
  get_call g (config_api_base g ++ lit "/models") key.

(** The key of the configuration in memory, empty when absent. *)
Definition file_key (g : Globals) : pystr :=
  get_or (api_key (get_deepseek (config g))) [].

(** The key [check_api_key] tries: [API_KEY], or else the key of the
    configuration in memory. *)
Definition checked_key (g : Globals) : pystr :=
  if truthy (API_KEY g) then API_KEY g else file_key g.

Definition unreachable_upstream : HttpRequest -> result Response :=
  fun _ => Raise ClientError.

Definition writable_disk : Disk :=
  {| read_text := Ok (lit "deepseek:"); write_text := Ok tt;
     load_config := file_config |}.

(** ** [update_yaml_field] *)

(** [str.isspace] on one character; [\s] of [re] on [str] is the same set. *)
Definition isspace (c : N) : bool :=
  (in_range 9 13 c || in_range 28 32 c || (c =? 133) || (c =? 160)
   || (c =? 5760) || in_range 8192 8202 c || (c =? 8232) || (c =? 8233)
   || (c =? 8239) || (c =? 8287) || (c =? 12288))%N.

(** [line.lstrip()] *)
Fixpoint lstrip (line : pystr) : pystr :=
  match line with
  | c :: rest => if isspace c then lstrip rest else line
  | [] => []
  end.

(** [not line.strip()] *)
Definition is_blank (line : pystr) : bool :=
  match lstrip line with
  | [] => true
  | _ :: _ => false
  end.

(** [line.strip().startswith('#')] *)
Definition is_comment (line : pystr) : bool :=
  match lstrip line with
  | c :: _ => (c =? 35)%N
  | [] => false
  end.

(** [len(line) - len(line.lstrip())] *)
Definition indent_count (line : pystr) : nat :=
  List.length line - List.length (lstrip line).

(** [content.split('\n')] *)
Fixpoint split_lines (content : pystr) : list pystr :=
  match content with
  | [] => [[]]
  | c :: rest =>
      if (c =? 10)%N then [] :: split_lines rest
      else
        match split_lines rest with
        | line :: lines => (c :: line) :: lines
        | [] => [[c]]
        end
  end.

(** ['\n'.join(lines)] *)
Fixpoint join_lines (lines : list pystr) : pystr :=
  match lines with
  | [] => []
  | [line] => line
  | line :: rest => line ++ 10%N :: join_lines rest
  end.

(** [re.match(r'^\s*' + name + r'\s*:', line)], the name read as the text
    it is: this is what the pattern does for a name without the special
    characters of [re] that does not start with white space. *)
Definition key_match (name line : pystr) : bool :=
  let rest := lstrip line in
  startswith name rest
  && match lstrip (skipn (List.length name) rest) with
     | c :: _ => (c =? 58)%N
     | [] => false
     end.

(** What [.*$] accepts: no line feed, but for one at the very end. *)
Fixpoint dot_star_end (s : pystr) : bool :=
  match s with
  | [] => true
  | c :: rest =>
      if (c =? 10)%N then match rest with [] => true | _ :: _ => false end
      else dot_star_end rest
  end.

(** [re.match(f"^{target_indent}{target_field}:.*$", line)], the name read
    as the text it is. *)
Definition field_match (indent : nat) (name line : pystr) : bool :=
  let prefix := repeat 32%N indent ++ name ++ [58%N] in
  startswith prefix line && dot_star_end (skipn (List.length prefix) line).

(** [f'"{new_value}"' if new_value is not None else ""] *)
Definition value_str (new_value : option pystr) : pystr :=
  match new_value with
  | Some v => [34%N] ++ v ++ [34%N]
  | None => []
  end.

(** [f"{indent}{name}: {value_str}"] *)
Definition field_line (indent : nat) (name : pystr) (new_value : option pystr)
  : pystr :=
  repeat 32%N indent ++ name ++ [58%N; 32%N] ++ value_str new_value.

(** [f"{indent}{name}:"] *)
Definition section_line (indent : nat) (name : pystr) : pystr :=
  repeat 32%N indent ++ name ++ [58%N].

(** [l[i] = x] for an index in range. *)
Fixpoint list_set {A} (l : list A) (i : nat) (x : A) : list A :=
  match l, i with
  | [], _ => []
  | _ :: rest, O => x :: rest
  | y :: rest, S i' => y :: list_set rest i' x
  end.

(** One turn of the first loop: a line that is neither blank nor a comment
    and sits at a level above the last one marks the next level as found
    when it holds the key of its level. *)
Definition mark_parent (field_path : list pystr) (parent_found : list bool)
    (line : pystr) : list bool :=
  if is_blank line || is_comment line then parent_found
  else
    let current_level := (indent_count line / 2)%nat in
    if (current_level <? List.length field_path - 1)%nat then
      if key_match (nth current_level field_path []) line
      then list_set parent_found (current_level + 1) true
      else parent_found
    else parent_found.

(** The first loop, from [[True, False, ..., False]]. *)
Definition find_parents (field_path : list pystr) (lines : list pystr)
  : list bool :=
  fold_left (mark_parent field_path) lines
            (true :: repeat false (List.length field_path - 1)).

(** [parent_found.index(False)] *)
Fixpoint index_false (l : list bool) : nat :=
  match l with
  | [] => O
  | true :: rest => S (index_false rest)
  | false :: _ => O
  end.

(** The position of the insertion: after the first line that is the last
    one or is followed by a blank line; [i] is the index of the head of
    [lines]. *)
Fixpoint insert_pos_from (i : nat) (lines : list pystr) : nat :=
  match lines with
  | [] => O
  | _ :: rest =>
      match rest with
      | [] => i + 1
      | next :: _ => if is_blank next then i + 1 else insert_pos_from (S i) rest
      end
  end.

(** The lines made for the levels from [first_missing] on, each indented by
    two spaces for every level above the first. *)
Definition missing_lines (field_path : list pystr) (first_missing : nat)
    (new_value : option pystr) : list pystr :=
  map (fun level =>
         if (level =? List.length field_path - 1)%nat
         then field_line (2 * (level - 1)) (nth level field_path []) new_value
         else section_line (2 * (level - 1)) (nth level field_path []))
      (seq first_missing (List.length field_path - first_missing)).

(** The lines appended when the field was not found: the whole path, each
    level indented by two spaces more. *)
Definition appended_lines (field_path : list pystr)
    (new_value : option pystr) : list pystr :=
  map (fun level =>
         if (level =? List.length field_path - 1)%nat
         then field_line (2 * level) (nth level field_path []) new_value
         else section_line (2 * level) (nth level field_path []))
      (seq 0 (List.length field_path)).

(** The [while] loop under a parent line: it walks the lines that are
    blank, comments or indented deeper than the parent, and replaces the
    first one that holds the field. *)
Fixpoint replace_in_block (parent_indent target_indent : nat)
    (target_field : pystr) (new_value : option pystr) (tail : list pystr)
  : option (list pystr) :=
  match tail with
  | [] => None
  | line :: rest =>
      if is_blank line || is_comment line
         || (parent_indent <? indent_count line)%nat
      then
        if field_match target_indent target_field line
        then Some (field_line target_indent target_field new_value :: rest)
        else option_map (cons line)
               (replace_in_block parent_indent target_indent target_field
                                 new_value rest)
      else None
  end.

(** The second loop, from the line at hand on: the lines as it leaves them
    and [field_found].  The fuel is the number of lines left. *)
Fixpoint update_loop (fuel : nat) (field_path : list pystr)
    (new_value : option pystr) (lines : list pystr) (field_found : bool)
  : list pystr * bool :=
  let target_field := last field_path [] in
  let target_level := (List.length field_path - 1)%nat in
  let target_indent := (2 * target_level)%nat in
  match fuel, lines with
  | O, _ | _, [] => (lines, field_found)
  | S fuel', line :: rest =>
      let continue (rest' : list pystr) (found : bool) :=
        let (out, found') :=
          update_loop fuel' field_path new_value rest' found in
        (line :: out, found') in
      if is_blank line || is_comment line then continue rest field_found
      else
        let indent := indent_count line in
        let current_level := (indent / 2)%nat in
        if (current_level =? target_level - 1)%nat
           && (0 <? target_level)%nat
           && key_match (nth (target_level - 1) field_path []) line
        then
          match replace_in_block indent target_indent target_field
                                 new_value rest with
          | Some rest' => continue rest' true
          | None =>
              if field_found then continue rest field_found
              else
                (line :: field_line target_indent target_field new_value
                      :: rest, true)
          end
        else if (target_level =? 0)%nat
                && field_match target_indent target_field line
        then (field_line 0 target_field new_value :: rest, true)
        else continue rest field_found
  end.

(** The function on the list of lines, between [split] and [join]. *)
Definition update_lines (lines : list pystr) (field_path : list pystr)
    (new_value : option pystr) : result (list pystr) :=
  match field_path with
  | [] => Raise IndexError
  | _ :: _ =>
      let parent_found := find_parents field_path lines in
      if negb (forallb (fun found => found) parent_found) then
        let first_missing := index_false parent_found in
        let insert_pos := insert_pos_from 0 lines in
        Ok (firstn insert_pos lines
            ++ missing_lines field_path first_missing new_value
            ++ skipn insert_pos lines)
      else
        let (lines', field_found) :=
          update_loop (List.length lines) field_path new_value lines false in
        Ok (if field_found then lines'
            else lines' ++ appended_lines field_path new_value)
  end.

Definition update_yaml_field (content : pystr) (field_path : list pystr)
    (new_value : option pystr) : result pystr :=
  lines <- update_lines (split_lines content) field_path new_value ;;
  Ok (join_lines lines).

(** The characters [re] gives a meaning of their own. *)
Definition re_special (c : N) : bool :=
  existsb (N.eqb c) (lit ".^$*+?{}[]\\|()").

(** A name the patterns read as the text it is: none of the special
    characters, and no white space in front. *)
Definition plain_name (name : pystr) : bool :=
  forallb (fun c => negb (re_special c)) name
  && match name with
     | c :: _ => negb (isspace c)
     | [] => true
     end.

(** A line that opens the section [name] at the top level: neither blank
    nor a comment, indented by less than two, holding the key. *)
Definition declares (name line : pystr) : bool :=
  negb (is_blank line || is_comment line)
  && (indent_count line / 2 =? 0)%nat
  && key_match name line.

(** A line the [while] loop under [parent] walks over. *)
Definition in_block (parent line : pystr) : bool :=
  is_blank line || is_comment line
  || (indent_count parent <? indent_count line)%nat.

Definition no_line_feed (s : pystr) : bool :=
  forallb (fun c => negb (c =? 10)%N) s.

(** The number of line feeds of a text. *)
Definition line_feeds (s : pystr) : nat :=
  List.length (filter (fun c => (c =? 10)%N) s).

(** A text given by its lines, apostrophes standing for double quotes. *)
Definition text_lines (lines : list string) : pystr :=
  join_lines (map dq lines).

Definition config_with_key : pystr :=
  text_lines ["# settings"%string; "deepseek:"%string;
              "  api_base: 'https://api.deepseek.com/v1'"%string;
              "  api_key: 'sk-old'"%string; "server:"%string;
              "  port: 8899"%string].

Definition config_without_key : pystr :=
  text_lines ["deepseek:"%string; "  default_model: 'deepseek-chat'"%string;
              "server:"%string; "  port: 8899"%string].

Definition config_without_section : pystr :=
  text_lines ["server:"%string; "  port: 8899"%string; ""%string;
              "log: 'info'"%string].

(** A printable ASCII character, from the space to the tilde. *)
Definition printable (c : N) : bool := in_range 32 126 c.

(** ** The generator and the upstream answer *)

(** The one call of the generator, with [data] as its JSON body. *)
Definition stream_call (verify : bool) (c : Closure) (data : value)
  : HttpRequest :=
  {| req_method := POST; req_url := url c; req_headers := headers c;
     req_json := Some data; req_stream := true; req_verify := verify |}.

(** A line whose payload is the sentinel. *)
Definition sentinel_line (line : pybytes) : bool :=
  match payload line with
  | Some p => is_sentinel p
  | None => false
  end.

(** An answer with status 200 and the given lines. *)
Definition lines_answer (lines : list pybytes) : Response :=
  {| status_code := 200; text := []; iter_lines := lines |}.

(** * Properties *)

(** ** The fuel of the scanner *)

Lemma skip_ws_length (s : pystr) :
  (List.length (skip_ws s) <= List.length s)%nat.
Proof.
  induction s as [|c s IH]; simpl; [lia|].
  destruct (is_ws c); simpl; lia.
Qed.

Lemma skip_ws_cons (s : pystr) (c : N) (r : pystr) :
  skip_ws s = c :: r -> (List.length r < List.length s)%nat.
Proof.
  intros H. pose proof (skip_ws_length s) as Hl. rewrite H in Hl.
  simpl in Hl. lia.
Qed.

Lemma scanstring_consuming : consuming scanstring.
Proof.
  intros s. remember (List.length s) as n eqn:Hn.
  assert (Hle : (List.length s <= n)%nat) by lia. clear Hn.
  revert s Hle. induction n as [|n IH]; intros s Hle t r H.
  - destruct s; [discriminate|simpl in Hle; lia].
  - destruct s as [|c s]; [discriminate|]. cbn [scanstring] in H.
    cbn [List.length] in Hle.
    repeat match type of H with
    | context [if ?b then _ else _] => destruct b
    | context [match scanstring ?x with _ => _ end] =>
        let E := fresh "E" in
        destruct (scanstring x) as [[? ?]|] eqn:E;
        [apply IH in E; [|cbn [List.length] in *; lia]|]
    | context [match ?x with _ => _ end] => destruct x
    end;
    try discriminate;
    try (injection H as <- <-); cbn [List.length] in *; try lia.
Qed.

Lemma startswith_length (word s : pystr) :
  startswith word s = true -> (List.length word <= List.length s)%nat.
Proof.
  revert s; induction word as [|p word IH]; intros [|c s]; simpl;
    try discriminate; try lia.
  intros H. apply andb_prop in H as [_ H]. apply IH in H. lia.
Qed.

Lemma strip_prefix_length (word s r : pystr) :
  strip_prefix word s = Some r ->
  (List.length r + List.length word = List.length s)%nat.
Proof.
  unfold strip_prefix. destruct (startswith word s) eqn:Hs; [|discriminate].
  intros H; injection H as <-. apply startswith_length in Hs.
  rewrite length_skipn. lia.
Qed.

Lemma span_digits_length (s ds r : pystr) :
  span_digits s = (ds, r) -> (List.length r <= List.length s)%nat.
Proof.
  revert ds r; induction s as [|c s IH]; intros ds r; simpl.
  - intros H; injection H as <- <-. simpl; lia.
  - destruct (is_digit c).
    + destruct (span_digits s) as [ds' r'] eqn:E.
      intros H; injection H as <- <-. specialize (IH _ _ eq_refl). lia.
    + intros H; injection H as <- <-. simpl; lia.
Qed.

Lemma match_int_part_length (s ip r : pystr) :
  match_int_part s = Some (ip, r) -> (List.length r < List.length s)%nat.
Proof.
  unfold match_int_part. destruct s as [|c s]; [discriminate|].
  destruct (c =? 48)%N.
  - intros H; injection H as <- <-. simpl; lia.
  - destruct (in_range 49 57 c) eqn:Hr; [|discriminate].
    cbn [span_digits]. unfold is_digit.
    assert (Hd : in_range 48 57 c = true).
    { unfold in_range in *. apply andb_prop in Hr as [H1 H2].
      apply N.leb_le in H1. rewrite H2, andb_true_r. apply N.leb_le. lia. }
    rewrite Hd. destruct (span_digits s) as [ds' r'] eqn:E.
    intros H; injection H as <- <-. apply span_digits_length in E.
    simpl; lia.
Qed.

Lemma match_frac_length (s fr r : pystr) :
  match_frac s = (fr, r) -> (List.length r <= List.length s)%nat.
Proof.
  unfold match_frac. destruct s as [|c s].
  - intros H; injection H as <- <-. simpl; lia.
  - destruct (c =? 46)%N.
    + destruct (span_digits s) as [[|d ds] r'] eqn:E;
        intros H; injection H as <- <-; [simpl; lia|].
      apply span_digits_length in E. simpl; lia.
    + intros H; injection H as <- <-. simpl; lia.
Qed.

Lemma match_exp_length (s ex r : pystr) :
  match_exp s = (ex, r) -> (List.length r <= List.length s)%nat.
Proof.
  unfold match_exp. destruct s as [|c s].
  - intros H; injection H as <- <-. simpl; lia.
  - destruct ((c =? 101) || (c =? 69))%N.
    + destruct s as [|g s1].
      * simpl. intros H; injection H as <- <-. simpl; lia.
      * destruct ((g =? 45) || (g =? 43))%N.
        -- destruct (span_digits s1) as [[|d ds] r'] eqn:E;
             intros H; injection H as <- <-; [simpl; lia|].
           apply span_digits_length in E. simpl; lia.
        -- destruct (span_digits (g :: s1)) as [[|d ds] r'] eqn:E;
             intros H; injection H as <- <-; [simpl; lia|].
           apply span_digits_length in E. simpl in *; lia.
    + intros H; injection H as <- <-. simpl; lia.
Qed.

Lemma match_number_consuming : consuming match_number.
Proof.
  intros s v r. unfold match_number.
  destruct s as [|c s].
  - simpl. discriminate.
  - destruct (c =? 45)%N.
    + destruct (match_int_part s) as [[ip s2]|] eqn:Ei; [|discriminate].
      destruct (match_frac s2) as [fr s3] eqn:Ef.
      destruct (match_exp s3) as [ex s4] eqn:Ee.
      apply match_int_part_length in Ei. apply match_frac_length in Ef.
      apply match_exp_length in Ee.
      destruct fr, ex; intros H; injection H as <- <-; simpl; lia.
    + destruct (match_int_part (c :: s)) as [[ip s2]|] eqn:Ei; [|discriminate].
      destruct (match_frac s2) as [fr s3] eqn:Ef.
      destruct (match_exp s3) as [ex s4] eqn:Ee.
      apply match_int_part_length in Ei. apply match_frac_length in Ef.
      apply match_exp_length in Ee.
      destruct fr, ex; intros H; injection H as <- <-; simpl in *; lia.
Qed.

Lemma scan_constant_consuming : consuming scan_constant.
Proof.
  intros s v r. unfold scan_constant.
  repeat match goal with
  | |- context [strip_prefix ?w s] =>
      let E := fresh "E" in
      destruct (strip_prefix w s) eqn:E;
      [apply strip_prefix_length in E; intros H; injection H as <- <-;
       cbn in E; lia|]
  | |- context [match_number s] =>
      let E := fresh "E" in
      destruct (match_number s) as [[? ?]|] eqn:E;
      [apply match_number_consuming in E; intros H; injection H as <- <-;
       exact E|]
  end.
  discriminate.
Qed.

Lemma once_body_consuming members elements :
  (forall acc, consuming (members acc)) -> consuming elements ->
  consuming (once_body members elements).
Proof.
  intros Hm He s v r. unfold once_body.
  destruct s as [|c s]; [discriminate|].
  destruct (c =? 34)%N.
  { destruct (scanstring s) as [[t rest]|] eqn:E; [|discriminate].
    apply scanstring_consuming in E.
    intros H; injection H as <- <-. simpl; lia. }
  destruct (c =? 123)%N.
  { destruct (skip_ws s) as [|c1 r1] eqn:Ew; [discriminate|].
    pose proof (skip_ws_length s) as Hl. rewrite Ew in Hl.
    destruct (c1 =? 125)%N.
    - intros H; injection H as <- <-. simpl in *; lia.
    - destruct (members [] (c1 :: r1)) as [[d rest]|] eqn:E; [|discriminate].
      apply Hm in E. intros H; injection H as <- <-. simpl in *; lia. }
  destruct (c =? 91)%N.
  { destruct (skip_ws s) as [|c1 r1] eqn:Ew; [discriminate|].
    pose proof (skip_ws_length s) as Hl. rewrite Ew in Hl.
    destruct (c1 =? 93)%N.
    - intros H; injection H as <- <-. simpl in *; lia.
    - destruct (elements (c1 :: r1)) as [[d rest]|] eqn:E; [|discriminate].
      apply He in E. intros H; injection H as <- <-. simpl in *; lia. }
  apply scan_constant_consuming.
Qed.

Lemma members_body_consuming once members :
  consuming once -> (forall acc, consuming (members acc)) ->
  forall acc, consuming (members_body once members acc).
Proof.
  intros Ho Hm acc s d r. unfold members_body.
  destruct s as [|q s]; [discriminate|].
  destruct (q =? 34)%N; [|discriminate].
  destruct (scanstring s) as [[key r1]|] eqn:Es; [|discriminate].
  apply scanstring_consuming in Es.
  destruct (skip_ws r1) as [|colon r2] eqn:Ew1; [discriminate|].
  apply skip_ws_cons in Ew1.
  destruct (colon =? 58)%N; [|discriminate].
  destruct (once (skip_ws r2)) as [[v r3]|] eqn:Eo; [|discriminate].
  apply Ho in Eo. pose proof (skip_ws_length r2) as Hl2.
  destruct (skip_ws r3) as [|e r4] eqn:Ew3; [discriminate|].
  apply skip_ws_cons in Ew3.
  destruct (e =? 125)%N.
  - intros H; injection H as <- <-. simpl; lia.
  - destruct (e =? 44)%N; [|discriminate].
    intros H. apply Hm in H. pose proof (skip_ws_length r4) as Hl4.
    simpl; lia.
Qed.

Lemma elements_body_consuming once elements :
  consuming once -> consuming elements ->
  consuming (elements_body once elements).
Proof.
  intros Ho He s vs r. unfold elements_body.
  destruct (once s) as [[v r0]|] eqn:Eo; [|discriminate].
  apply Ho in Eo.
  destruct (skip_ws r0) as [|e r1] eqn:Ew; [discriminate|].
  apply skip_ws_cons in Ew.
  destruct (e =? 93)%N.
  - intros H; injection H as <- <-. lia.
  - destruct (e =? 44)%N; [|discriminate].
    destruct (elements (skip_ws r1)) as [[vs' rest]|] eqn:Ee; [|discriminate].
    apply He in Ee. pose proof (skip_ws_length r1) as Hl1.
    intros H; injection H as <- <-. lia.
Qed.

Lemma scan_consuming (fuel : nat) :
  consuming (scan_once fuel)
  /\ (forall acc, consuming (scan_members fuel acc))
  /\ consuming (scan_elements fuel).
Proof.
  induction fuel as [|fuel (IHo & IHm & IHe)].
  - repeat split; repeat intro; discriminate.
  - split; [|split].
    + apply once_body_consuming; assumption.
    + apply members_body_consuming; assumption.
    + apply elements_body_consuming; assumption.
Qed.

(** The bodies look at their parameters on shorter texts only. *)
Lemma once_body_ext m1 m2 e1 e2 (s : pystr) :
  (forall acc s', (List.length s' < List.length s)%nat -> m1 acc s' = m2 acc s') ->
  (forall s', (List.length s' < List.length s)%nat -> e1 s' = e2 s') ->
  once_body m1 e1 s = once_body m2 e2 s.
Proof.
  intros Hm He. unfold once_body. destruct s as [|c s]; [reflexivity|].
  destruct (c =? 34)%N; [reflexivity|].
  pose proof (skip_ws_length s) as Hl.
  destruct (c =? 123)%N.
  { destruct (skip_ws s) as [|c1 r1]; [reflexivity|].
    destruct (c1 =? 125)%N; [reflexivity|].
    rewrite Hm; [reflexivity|]. simpl in *; lia. }
  destruct (c =? 91)%N; [|reflexivity].
  destruct (skip_ws s) as [|c1 r1]; [reflexivity|].
  destruct (c1 =? 93)%N; [reflexivity|].
  rewrite He; [reflexivity|]. simpl in *; lia.
Qed.

Lemma members_body_ext o1 o2 m1 m2 (acc : dict) (s : pystr) :
  consuming o1 ->
  (forall s', (List.length s' < List.length s)%nat -> o1 s' = o2 s') ->
  (forall acc' s', (List.length s' < List.length s)%nat ->
                   m1 acc' s' = m2 acc' s') ->
  members_body o1 m1 acc s = members_body o2 m2 acc s.
Proof.
  intros Hc Ho Hm. unfold members_body. destruct s as [|q s]; [reflexivity|].
  destruct (q =? 34)%N; [|reflexivity].
  destruct (scanstring s) as [[key r1]|] eqn:Es; [|reflexivity].
  apply scanstring_consuming in Es.
  destruct (skip_ws r1) as [|colon r2] eqn:Ew1; [reflexivity|].
  apply skip_ws_cons in Ew1.
  destruct (colon =? 58)%N; [|reflexivity].
  pose proof (skip_ws_length r2) as Hl2.
  rewrite <- Ho by (simpl; lia).
  destruct (o1 (skip_ws r2)) as [[v r3]|] eqn:Eo; [|reflexivity].
  apply Hc in Eo.
  destruct (skip_ws r3) as [|e r4] eqn:Ew3; [reflexivity|].
  apply skip_ws_cons in Ew3.
  destruct (e =? 125)%N; [reflexivity|].
  destruct (e =? 44)%N; [|reflexivity].
  pose proof (skip_ws_length r4) as Hl4. apply Hm. simpl; lia.
Qed.

Lemma elements_body_ext o1 o2 e1 e2 (s : pystr) :
  consuming o1 ->
  (forall s', (List.length s' <= List.length s)%nat -> o1 s' = o2 s') ->
  (forall s', (List.length s' < List.length s)%nat -> e1 s' = e2 s') ->
  elements_body o1 e1 s = elements_body o2 e2 s.
Proof.
  intros Hc Ho He. unfold elements_body.
  rewrite <- Ho by lia.
  destruct (o1 s) as [[v r0]|] eqn:Eo; [|reflexivity].
  apply Hc in Eo.
  destruct (skip_ws r0) as [|e r1] eqn:Ew; [reflexivity|].
  apply skip_ws_cons in Ew.
  destruct (e =? 93)%N; [reflexivity|].
  destruct (e =? 44)%N; [|reflexivity].
  pose proof (skip_ws_length r1) as Hl1. rewrite He by lia. reflexivity.
Qed.

(** One more unit of fuel changes nothing once the fuel is twice the length
    of the text and a little more. *)
Lemma scan_stable (fuel : nat) :
  (forall s, (2 * List.length s + 1 <= fuel)%nat ->
             scan_once (S fuel) s = scan_once fuel s)
  /\ (forall acc s, (2 * List.length s + 2 <= fuel)%nat ->
                    scan_members (S fuel) acc s = scan_members fuel acc s)
  /\ (forall s, (2 * List.length s + 2 <= fuel)%nat ->
                scan_elements (S fuel) s = scan_elements fuel s).
Proof.
  induction fuel as [|fuel (IHo & IHm & IHe)].
  - repeat split; intros; lia.
  - destruct (scan_consuming (S fuel)) as (Co & _ & _).
    split; [|split].
    + intros s Hs. change (scan_once (S (S fuel)) s)
        with (once_body (scan_members (S fuel)) (scan_elements (S fuel)) s).
      change (scan_once (S fuel) s)
        with (once_body (scan_members fuel) (scan_elements fuel) s).
      apply once_body_ext.
      * intros acc s' Hl. apply IHm. lia.
      * intros s' Hl. apply IHe. lia.
    + intros acc s Hs. change (scan_members (S (S fuel)) acc s)
        with (members_body (scan_once (S fuel)) (scan_members (S fuel)) acc s).
      change (scan_members (S fuel) acc s)
        with (members_body (scan_once fuel) (scan_members fuel) acc s).
      apply members_body_ext.
      * exact Co.
      * intros s' Hl. apply IHo. lia.
      * intros acc' s' Hl. apply IHm. lia.
    + intros s Hs. change (scan_elements (S (S fuel)) s)
        with (elements_body (scan_once (S fuel)) (scan_elements (S fuel)) s).
      change (scan_elements (S fuel) s)
        with (elements_body (scan_once fuel) (scan_elements fuel) s).
      apply elements_body_ext.
      * exact Co.
      * intros s' Hl. apply IHo. lia.
      * intros s' Hl. apply IHe. lia.
Qed.

Lemma scan_once_enough (s : pystr) (extra : nat) :
  scan_once (2 * List.length s + 1 + extra) s
  = scan_once (2 * List.length s + 1) s.
Proof.
  induction extra as [|extra IH].
  - rewrite Nat.add_0_r. reflexivity.
  - rewrite Nat.add_succ_r.
    destruct (scan_stable (2 * List.length s + 1 + extra)) as (Ho & _ & _).
    rewrite Ho by lia. exact IH.
Qed.

(** The fuel of [json_loads] is enough: with any larger fuel the decoder
    gives the same result. *)
Theorem decode_with_enough (s : pystr) (fuel : nat) :
  (2 * List.length s + 2 <= fuel)%nat ->
  decode_with fuel s = json_loads s.
Proof.
  intros Hf. unfold json_loads, decode_with.
  pose proof (skip_ws_length s) as Hl.
  set (t := skip_ws s) in *.
  replace fuel with (2 * List.length t + 1 + (fuel - (2 * List.length t + 1)))%nat
    by lia.
  replace (2 * List.length s + 2)%nat
    with (2 * List.length t + 1
          + (2 * List.length s + 2 - (2 * List.length t + 1)))%nat by lia.
  rewrite !scan_once_enough. reflexivity.
Qed.

(** ** Strings and the decoded chunk *)

Lemma pystr_eqb_eq (a b : pystr) : pystr_eqb a b = true <-> a = b.
Proof.
  revert b; induction a as [|x a IH]; intros [|y b]; simpl; split;
    try congruence; try reflexivity.
  - intros H. apply andb_prop in H as [Hx Hab].
    apply N.eqb_eq in Hx. apply IH in Hab. congruence.
  - intros H. injection H as -> ->. rewrite N.eqb_refl. simpl.
    apply IH. reflexivity.
Qed.

Lemma decode_nonempty (line : pybytes) (s : pystr) :
  decode line = Some s -> s <> [] -> line <> [].
Proof.
  intros Hd Hs ->. unfold decode in Hd. simpl in Hd. congruence.
Qed.

Lemma startswith_nonempty (s : pystr) :
  startswith (lit "data: ") s = true -> s <> [].
Proof. intros H ->. discriminate H. Qed.

(** The extraction succeeds on a chunk with a first choice and a delta, and
    gives the normalized event. *)
Lemma extract_normalized (chunk : value) (e : event) :
  normalized chunk = Some e -> extract chunk = Ok e.
Proof.
  unfold normalized, first_choice, delta_of, extract, py_get.
  destruct chunk as [| | | | |xs|d]; try discriminate.
  destruct (lookup d (lit "choices")) as [choices|]; simpl.
  - destruct choices as [| | | | |[|[| | | | | |choice] xs]|]; try discriminate.
    simpl. destruct (lookup choice (lit "delta")) as [[| | | | | |delta]|];
      try discriminate; simpl; intros H; injection H as <-; reflexivity.
  - intros H; injection H as <-; reflexivity.
Qed.

(** On every other chunk the extraction raises, and never the exception the
    [except] clause names. *)
Lemma extract_raises (chunk : value) :
  normalized chunk = None ->
  exists x, extract chunk = Raise x /\ In x shape_errors.
Proof.
  unfold normalized, first_choice, delta_of, extract, py_get, shape_errors.
  destruct chunk as [| | | | |xs|d]; intros H;
    try (eexists; split; [reflexivity | simpl; tauto]).
  destruct (lookup d (lit "choices")) as [choices|]; simpl in *.
  - destruct choices as [| | |fl|[|c s]|[|[| | | | | |choice] xs]|];
      try (eexists; split; [reflexivity | simpl; tauto]).
    simpl in *.
    destruct (lookup choice (lit "delta")) as [[| | | | | |delta]|];
      try discriminate; simpl;
      eexists; (split; [reflexivity | simpl; tauto]).
  - discriminate.
Qed.

Lemma shape_error_not_decode (x : exn) :
  In x shape_errors -> x <> JSONDecodeError.
Proof. simpl. intros [<-|[<-|[<-|[<-|[]]]]]; discriminate. Qed.

(** ** One turn of the loop *)

Lemma payload_inv (line : pybytes) (p : pystr) :
  payload line = Some p ->
  exists s, decode line = Some s
            /\ startswith (lit "data: ") s = true /\ p = skipn 6 s.
Proof.
  unfold payload. destruct (decode line) as [s|]; [|discriminate].
  destruct (startswith (lit "data: ") s) eqn:Hs; [|discriminate].
  intros H; injection H as <-. exists s. auto.
Qed.

(** A data frame goes through the sentinel test, then through the [try]
    statement. *)
Lemma loop_body_payload (line : pybytes) (p : pystr) :
  payload line = Some p ->
  loop_body line =
    if is_sentinel p then EmitBreak stop_event
    else match try_block p with
         | Ok e => Emit e
         | Raise JSONDecodeError => Emit parse_error_event
         | Raise x => Fail x
         end.
Proof.
  intros Hp. destruct (payload_inv _ _ Hp) as (s & Hd & Hs & ->).
  pose proof (decode_nonempty _ _ Hd (startswith_nonempty _ Hs)) as Hne.
  destruct line as [|b line]; [congruence|].
  unfold loop_body. rewrite Hd, Hs. reflexivity.
Qed.

(** A line that is not a data frame yields nothing, unless it is not
    UTF-8. *)
Lemma loop_body_other (line : pybytes) (s : pystr) :
  decode line = Some s -> startswith (lit "data: ") s = false ->
  loop_body line = Skip.
Proof.
  intros Hd Hs. destruct line as [|b line]; [reflexivity|].
  unfold loop_body. rewrite Hd, Hs. reflexivity.
Qed.

Lemma try_block_decoded (p : pystr) (chunk : value) :
  json_loads p = Some chunk -> try_block p = extract chunk.
Proof. intros H. unfold try_block, loads. rewrite H. reflexivity. Qed.

Lemma try_block_undecodable (p : pystr) :
  json_loads p = None -> try_block p = Raise JSONDecodeError.
Proof. intros H. unfold try_block, loads. rewrite H. reflexivity. Qed.

(** The sentinel is not JSON: a payload that decodes is not the sentinel. *)
Lemma decoded_not_sentinel (p : pystr) (chunk : value) :
  json_loads p = Some chunk -> is_sentinel p = false.
Proof.
  intros Hj. destruct (is_sentinel p) eqn:Hs; [|reflexivity].
  apply pystr_eqb_eq in Hs. subst p. discriminate Hj.
Qed.

(** On a relayable line the loop does what the specification words: one
    event for a data frame, nothing otherwise. *)
Lemma loop_body_relayable (line : pybytes) :
  relayable line = true ->
  loop_body line = match frame_event line with
                   | Some e => Emit e
                   | None => Skip
                   end.
Proof.
  destruct line as [|b line]; [reflexivity|].
  unfold relayable, frame_event, payload, loop_body, is_sentinel.
  destruct (decode (b :: line)) as [s|]; [|discriminate].
  destruct (startswith (lit "data: ") s); [|reflexivity].
  destruct (pystr_eqb (skipn 6 s) (lit "[DONE]")); [discriminate|].
  rewrite andb_true_l.
  destruct (json_loads (skipn 6 s)) as [chunk|] eqn:Hj.
  - rewrite (try_block_decoded _ _ Hj).
    destruct (normalized chunk) as [e|] eqn:Hn; [|discriminate].
    rewrite (extract_normalized _ _ Hn). reflexivity.
  - rewrite (try_block_undecodable _ Hj). reflexivity.
Qed.

(** A relayable line has an event exactly when it is a data frame. *)
Lemma frame_event_data_frame (line : pybytes) :
  relayable line = true ->
  List.length (match frame_event line with Some e => [e] | None => [] end)
  = if is_data_frame line then 1%nat else 0%nat.
Proof.
  destruct line as [|b line]; [reflexivity|].
  unfold relayable, frame_event, is_data_frame, payload.
  destruct (decode (b :: line)) as [s|]; [|discriminate].
  destruct (startswith (lit "data: ") s); [|reflexivity].
  destruct (json_loads (skipn 6 s)) as [chunk|]; [|reflexivity].
  destruct (normalized chunk); [reflexivity|].
  rewrite andb_false_r. discriminate.
Qed.

(** ** The loop over a run of relayable lines *)

Lemma for_lines_relayable (pre rest : list pybytes) :
  forallb relayable pre = true ->
  for_lines (pre ++ rest) = yield_all (expected_events pre) (for_lines rest).
Proof.
  induction pre as [|line pre IH]; simpl; intros H.
  - destruct (for_lines rest); reflexivity.
  - apply andb_prop in H as [Hl Hpre].
    rewrite (loop_body_relayable _ Hl), (IH Hpre).
    destruct (frame_event line); reflexivity.
Qed.

Lemma expected_events_length (lines : list pybytes) :
  forallb relayable lines = true ->
  List.length (expected_events lines) = List.length (data_frames lines).
Proof.
  induction lines as [|line lines IH]; simpl; intros H; [reflexivity|].
  apply andb_prop in H as [Hl Hrest].
  unfold expected_events in *. simpl. rewrite length_app, (IH Hrest).
  rewrite (frame_event_data_frame _ Hl).
  destruct (is_data_frame line); reflexivity.
Qed.

Lemma loop_body_done : loop_body done_line = EmitBreak stop_event.
Proof. reflexivity. Qed.

Lemma well_formed_relayable (lines : list pybytes) :
  forallb well_formed lines = true -> forallb relayable lines = true.
Proof.
  induction lines as [|line lines IH]; simpl; [reflexivity|].
  intros H. apply andb_prop in H as [Hl Hrest].
  unfold well_formed in Hl. apply andb_prop in Hl as [Hl _].
  rewrite Hl, (IH Hrest). reflexivity.
Qed.

(** The whole loop on well-formed lines closed by the sentinel: one event
    per data frame in the order of the frames, then the event of the
    sentinel, and nothing read after it. *)
Lemma for_lines_well_formed (pre rest : list pybytes) :
  forallb well_formed pre = true ->
  for_lines (pre ++ done_line :: rest)
  = {| emitted := expected_events pre ++ [stop_event];
       outcome := Returned; unread := rest |}
  /\ List.length (expected_events pre) = List.length (data_frames pre).
Proof.
  intros H. apply well_formed_relayable in H. split.
  - rewrite (for_lines_relayable _ _ H). reflexivity.
  - apply expected_events_length, H.
Qed.

(** ** The generator as a whole *)

(** However it is answered, the generator stops at the arguments of its one
    call: [json=data] reads the local [data] before the loop has assigned
    it.  No call is made and nothing is yielded. *)
Lemma generate_unbound_local (verify : bool) (c : Closure)
    (upstream : HttpRequest -> result Response) :
  generate verify c upstream
  = ([], {| emitted := []; outcome := Raised UnboundLocalError; unread := [] |}).
Proof. reflexivity. Qed.

Lemma stream_body_unbound_local (sr : StreamingResponse)
    (upstream : HttpRequest -> result Response) (w : World) :
  stream_body sr upstream w
  = (w, {| emitted := []; outcome := Raised UnboundLocalError; unread := [] |}).
Proof.
  unfold stream_body. rewrite generate_unbound_local. rewrite app_nil_r.
  destruct w; reflexivity.
Qed.

(** With a key, [/stream] answers with a streaming response, having sent
    nothing. *)
Lemma stream_completion_returns (request : ChatRequest) (w : World) :
  truthy (API_KEY (globals w)) = true ->
  stream_completion request w
  = (w, Ok {| response_status := 200;
              media_type := lit "text/event-stream";
              body_iterator :=
                {| url := API_BASE (globals w) ++ lit "/chat/completions";
                   headers := auth_headers (API_KEY (globals w)) |} |}).
Proof.
  intros H. unfold stream_completion, mbind, read_globals. rewrite H.
  reflexivity.
Qed.

(** C1 (the code departs from it): for the well-formed upstream sequence
    [hi_line; blank; bye_line; blank; done_line] the loop of the generator
    would yield the two frame events and the stop event, in that order; the
    generator of [/stream] never gets to the loop: it raises
    [UnboundLocalError] before its call, and yields nothing. *)
Theorem C1_stream_yields_nothing :
  forallb well_formed [hi_line; []; bye_line; []] = true
  /\ for_lines (iter_lines stream_answer)
     = {| emitted := [hi_event; bye_event; stop_event];
          outcome := Returned; unread := [] |}
  /\ exists sr,
       stream_completion hello_request env_world = (env_world, Ok sr)
       /\ stream_body sr (answering stream_answer) env_world
          = (env_world,
             {| emitted := []; outcome := Raised UnboundLocalError;
                unread := [] |}).
Proof.
  split; [reflexivity|]. split; [reflexivity|].
  eexists. split.
  - apply stream_completion_returns. reflexivity.
  - apply stream_body_unbound_local.
Qed.

(** ** The loop of the generator *)

(** A line whose payload is the sentinel makes the loop yield exactly the
    event with empty content and finish reason stop, and end there: the
    lines after it are left unread. *)
Lemma for_lines_sentinel (line : pybytes) (p : pystr) (rest : list pybytes) :
  payload line = Some p ->
  p = lit "[DONE]" ->
  for_lines (line :: rest)
  = {| emitted := [stop_event]; outcome := Returned; unread := rest |}.
Proof.
  intros Hp ->. simpl. rewrite (loop_body_payload _ _ Hp). reflexivity.
Qed.

(** A data frame whose payload decodes to a JSON object in which [choices]
    is absent or a list that starts with an object, whose [delta] is absent
    or an object: the loop yields exactly one event and goes on. *)
Lemma for_lines_decoded_chunk (line : pybytes) (p : pystr) (chunk : value)
    (choice delta : dict) (rest : list pybytes) :
  payload line = Some p ->
  json_loads p = Some chunk ->
  first_choice chunk = Some choice ->
  delta_of choice = Some delta ->
  let e := {| content := get_or (lookup delta (lit "content")) (VStr []);
              finish_reason :=
                get_or (lookup choice (lit "finish_reason")) VNone |} in
  loop_body line = Emit e
  /\ for_lines (line :: rest) = yield_then e (for_lines rest).
Proof.
  intros Hp Hj Hc Hd e.
  assert (Hb : loop_body line = Emit e).
  { rewrite (loop_body_payload _ _ Hp), (decoded_not_sentinel _ _ Hj).
    rewrite (try_block_decoded _ _ Hj).
    rewrite (extract_normalized chunk e); [reflexivity|].
    unfold normalized. rewrite Hc, Hd. reflexivity. }
  split; [exact Hb|]. simpl. rewrite Hb. reflexivity.
Qed.

(** A data frame whose payload is not JSON does not end the loop: it yields
    the marker and the lines after it are handled as if it had not been
    there. *)
Lemma for_lines_undecodable (line : pybytes) (p : pystr)
    (rest : list pybytes) :
  payload line = Some p ->
  is_sentinel p = false ->
  json_loads p = None ->
  for_lines (line :: rest) = yield_then parse_error_event (for_lines rest).
Proof.
  intros Hp Hs Hj. simpl.
  rewrite (loop_body_payload _ _ Hp), Hs, (try_block_undecodable _ Hj).
  reflexivity.
Qed.

(** When the lines run out and every one of them was relayable, the loop
    returns, having yielded the events of the data frames and nothing
    else. *)
Lemma for_lines_eof (lines : list pybytes) :
  forallb relayable lines = true ->
  for_lines lines
  = {| emitted := expected_events lines; outcome := Returned; unread := [] |}.
Proof.
  intros H. rewrite <- (app_nil_r lines) at 1.
  rewrite (for_lines_relayable _ _ H). simpl.
  unfold yield_all. simpl. rewrite app_nil_r. reflexivity.
Qed.

(** A data frame whose payload decodes to JSON of another shape makes the
    extraction raise, and the exception leaves the loop. *)
Lemma for_lines_shape_error (line : pybytes) (p : pystr) (chunk : value)
    (rest : list pybytes) :
  payload line = Some p ->
  json_loads p = Some chunk ->
  normalized chunk = None ->
  exists x,
    In x shape_errors
    /\ (forall d, chunk = VDict d ->
                  lookup d (lit "choices") = Some (VList []) -> x = IndexError)
    /\ for_lines (line :: rest)
       = {| emitted := []; outcome := Raised x; unread := rest |}.
Proof.
  intros Hp Hj Hn.
  destruct (extract_raises _ Hn) as (x & Hx & Hin).
  exists x. split; [exact Hin|]. split.
  - intros d -> Hc. unfold extract, py_get in Hx. rewrite Hc in Hx.
    simpl in Hx. congruence.
  - simpl. rewrite (loop_body_payload _ _ Hp), (decoded_not_sentinel _ _ Hj).
    rewrite (try_block_decoded _ _ Hj), Hx.
    pose proof (shape_error_not_decode _ Hin).
    destruct x; congruence.
Qed.

(** A line that is neither relayable nor the sentinel ends the loop with an
    exception. *)
Lemma loop_body_not_relayable (line : pybytes) :
  relayable line = false ->
  sentinel_line line = false ->
  exists x, loop_body line = Fail x.
Proof.
  destruct line as [|b line]; [discriminate|].
  unfold relayable, sentinel_line, payload, loop_body, is_sentinel.
  destruct (decode (b :: line)) as [s|]; [|eexists; reflexivity].
  destruct (startswith (lit "data: ") s); [|discriminate].
  intros Hr Hs. rewrite Hs in *. rewrite andb_true_l in Hr.
  destruct (json_loads (skipn 6 s)) as [chunk|] eqn:Hj; [|discriminate].
  destruct (normalized chunk) as [e|] eqn:Hn; [discriminate|].
  destruct (extract_raises _ Hn) as (x & Hx & Hin).
  rewrite (try_block_decoded _ _ Hj), Hx.
  pose proof (shape_error_not_decode _ Hin).
  exists x. destruct x; congruence.
Qed.

(** Without a sentinel among the lines, the loop returns only when every
    line was relayable. *)
Lemma for_lines_returned (lines : list pybytes) :
  existsb sentinel_line lines = false ->
  outcome (for_lines lines) = Returned ->
  forallb relayable lines = true.
Proof.
  induction lines as [|line lines IH]; [reflexivity|].
  cbn [existsb forallb for_lines]. intros Hs Hr.
  apply orb_false_elim in Hs as [Hl Hs].
  destruct (relayable line) eqn:Hrel.
  - rewrite (loop_body_relayable _ Hrel) in Hr.
    destruct (frame_event line); apply IH; assumption.
  - destruct (loop_body_not_relayable _ Hrel Hl) as (x & Hx).
    rewrite Hx in Hr. discriminate Hr.
Qed.

(** ** The generator and the upstream answer *)

(** The generator with its local [data] bound, against an answer that
    passes [raise_for_status]: one call, then the loop over the lines of
    the answer. *)
Lemma generate_from_bound (data : value) (verify : bool) (c : Closure)
    (response : Response) :
  passes_status (status_code response) = true ->
  generate_from (Some data) verify c (answering response)
  = ([stream_call verify c data], for_lines (iter_lines response)).
Proof.
  intros H. unfold passes_status in H. apply negb_true_iff in H.
  unfold generate_from, read_local, answering, relay, raise_for_status.
  rewrite H. reflexivity.
Qed.

(** C2 (the code departs from it): with a key, [/stream] answers with a
    streaming response whose body never reaches the loop: the generator
    yields nothing and raises [UnboundLocalError] before its call, so an
    upstream line whose payload is the sentinel gives no stop event.  Were
    the local [data] bound, the generator would make its call and, after
    the events of the relayable lines before it, yield for that line
    exactly the event with empty content and finish reason stop and end
    there, the lines after it left unread. *)
Theorem C2_sentinel_not_relayed (w : World) (request : ChatRequest)
    (response : Response) (data : value) (pre : list pybytes)
    (line : pybytes) (p : pystr) (rest : list pybytes) :
  truthy (API_KEY (globals w)) = true ->
  passes_status (status_code response) = true ->
  iter_lines response = pre ++ line :: rest ->
  forallb relayable pre = true ->
  payload line = Some p ->
  p = lit "[DONE]" ->
  exists sr,
    stream_completion request w = (w, Ok sr)
    /\ stream_body sr (answering response) w
       = (w, {| emitted := []; outcome := Raised UnboundLocalError;
                unread := [] |})
    /\ generate_from (Some data) (SSL_VERIFY (globals w)) (body_iterator sr)
                     (answering response)
       = ([stream_call (SSL_VERIFY (globals w)) (body_iterator sr) data],
          {| emitted := expected_events pre ++ [stop_event];
             outcome := Returned; unread := rest |})
    /\ sse_frame stop_event
       = dq "data: {'content': '', 'finish_reason': 'stop'}" ++ [10; 10]%N.
Proof.
  intros Hk Hst Hl Hpre Hp Hd. eexists.
  split; [apply (stream_completion_returns _ _ Hk)|].
  split; [apply stream_body_unbound_local|].
  split; [|reflexivity].
  rewrite (generate_from_bound _ _ _ _ Hst), Hl.
  rewrite (for_lines_relayable _ _ Hpre), (for_lines_sentinel _ _ _ Hp Hd).
  reflexivity.
Qed.

Lemma C2_witness :
  exists sr,
    stream_completion hello_request env_world = (env_world, Ok sr)
    /\ stream_body sr (answering (lines_answer [done_line; hi_line])) env_world
       = (env_world, {| emitted := []; outcome := Raised UnboundLocalError;
                        unread := [] |})
    /\ generate_from (Some (request_data (globals env_world) hello_request true))
                     (SSL_VERIFY (globals env_world)) (body_iterator sr)
                     (answering (lines_answer [done_line; hi_line]))
       = ([stream_call (SSL_VERIFY (globals env_world)) (body_iterator sr)
                       (request_data (globals env_world) hello_request true)],
          {| emitted := [stop_event]; outcome := Returned;
             unread := [hi_line] |})
    /\ sse_frame stop_event
       = dq "data: {'content': '', 'finish_reason': 'stop'}" ++ [10; 10]%N.
Proof.
  apply (C2_sentinel_not_relayed env_world hello_request
           (lines_answer [done_line; hi_line])
           (request_data (globals env_world) hello_request true)
           [] done_line (lit "[DONE]") [hi_line]); reflexivity.
Defined.

(** C3 (the code departs from it): with a key, [/stream] answers with a
    streaming response whose body never reaches the loop: the generator
    yields nothing and raises [UnboundLocalError] before its call, so a
    frame whose payload decodes as JSON gives no event.  Were the local
    [data] bound, the generator would make its call and, for a payload that
    decodes to an object in which [choices] is absent or a list that starts
    with an object, whose [delta] is absent or an object, yield exactly one
    event and go on: its content [choices[0].delta.content], the empty
    string when absent, its finish reason [choices[0].finish_reason], null
    when absent. *)
Theorem C3_decoded_chunk_not_relayed (w : World) (request : ChatRequest)
    (response : Response) (data : value) (pre : list pybytes)
    (line : pybytes) (p : pystr) (chunk : value) (choice delta : dict)
    (rest : list pybytes) :
  truthy (API_KEY (globals w)) = true ->
  passes_status (status_code response) = true ->
  iter_lines response = pre ++ line :: rest ->
  forallb relayable pre = true ->
  payload line = Some p ->
  json_loads p = Some chunk ->
  first_choice chunk = Some choice ->
  delta_of choice = Some delta ->
  let e := {| content := get_or (lookup delta (lit "content")) (VStr []);
              finish_reason :=
                get_or (lookup choice (lit "finish_reason")) VNone |} in
  exists sr,
    stream_completion request w = (w, Ok sr)
    /\ stream_body sr (answering response) w
       = (w, {| emitted := []; outcome := Raised UnboundLocalError;
                unread := [] |})
    /\ generate_from (Some data) (SSL_VERIFY (globals w)) (body_iterator sr)
                     (answering response)
       = ([stream_call (SSL_VERIFY (globals w)) (body_iterator sr) data],
          yield_all (expected_events pre ++ [e]) (for_lines rest)).
Proof.
  intros Hk Hst Hl Hpre Hp Hj Hc Hd e. eexists.
  split; [apply (stream_completion_returns _ _ Hk)|].
  split; [apply stream_body_unbound_local|].
  rewrite (generate_from_bound _ _ _ _ Hst), Hl.
  rewrite (for_lines_relayable _ _ Hpre).
  destruct (for_lines_decoded_chunk _ _ _ _ _ rest Hp Hj Hc Hd) as [_ Hrun].
  rewrite Hrun. unfold yield_all, yield_then. simpl.
  rewrite <- app_assoc. reflexivity.
Qed.

Lemma C3_witness :
  payload hi_line
  = Some (dq "{'choices':[{'delta':{'content':'hi'},'finish_reason':null}]}")
  /\ sse_frame {| content := VStr (lit "hi"); finish_reason := VNone |}
     = dq "data: {'content': 'hi', 'finish_reason': null}" ++ [10; 10]%N
  /\ exists sr,
       stream_completion hello_request env_world = (env_world, Ok sr)
       /\ stream_body sr (answering (lines_answer [hi_line])) env_world
          = (env_world, {| emitted := []; outcome := Raised UnboundLocalError;
                           unread := [] |})
       /\ generate_from
            (Some (request_data (globals env_world) hello_request true))
            (SSL_VERIFY (globals env_world)) (body_iterator sr)
            (answering (lines_answer [hi_line]))
          = ([stream_call (SSL_VERIFY (globals env_world)) (body_iterator sr)
                (request_data (globals env_world) hello_request true)],
             {| emitted :=
                  [{| content := VStr (lit "hi"); finish_reason := VNone |}];
                outcome := Returned; unread := [] |}).
Proof.
  split; [reflexivity|]. split; [reflexivity|].
  apply (C3_decoded_chunk_not_relayed env_world hello_request
           (lines_answer [hi_line])
           (request_data (globals env_world) hello_request true)
           [] hi_line
           (dq "{'choices':[{'delta':{'content':'hi'},'finish_reason':null}]}")
           (VDict [(lit "choices",
                    VList [VDict [(lit "delta",
                                   VDict [(lit "content", VStr (lit "hi"))]);
                                  (lit "finish_reason", VNone)]])])
           [(lit "delta", VDict [(lit "content", VStr (lit "hi"))]);
            (lit "finish_reason", VNone)]
           [(lit "content", VStr (lit "hi"))]
           []); reflexivity.
Defined.

(** C4 (the code departs from it): with a key, [/stream] answers with a
    streaming response whose body never reaches the loop: the generator
    yields nothing and raises [UnboundLocalError] before its call, so a
    frame whose payload is not JSON gives no marker and the frames around
    it no event.  Were the local [data] bound, the generator would make its
    call and yield for that frame exactly one event, the marker text with a
    null finish reason, between the events of the lines before it and those
    of the lines after it, which are handled as if it had not been
    there. *)
Theorem C4_undecodable_frame_not_relayed (w : World) (request : ChatRequest)
    (response : Response) (data : value) (pre : list pybytes)
    (line : pybytes) (p : pystr) (rest : list pybytes) :
  truthy (API_KEY (globals w)) = true ->
  passes_status (status_code response) = true ->
  iter_lines response = pre ++ line :: rest ->
  forallb relayable pre = true ->
  payload line = Some p ->
  is_sentinel p = false ->
  json_loads p = None ->
  exists sr,
    stream_completion request w = (w, Ok sr)
    /\ stream_body sr (answering response) w
       = (w, {| emitted := []; outcome := Raised UnboundLocalError;
                unread := [] |})
    /\ generate_from (Some data) (SSL_VERIFY (globals w)) (body_iterator sr)
                     (answering response)
       = ([stream_call (SSL_VERIFY (globals w)) (body_iterator sr) data],
          yield_all (expected_events pre ++ [parse_error_event])
                    (for_lines rest))
    /\ finish_reason parse_error_event = VNone.
Proof.
  intros Hk Hst Hl Hpre Hp Hs Hj. eexists.
  split; [apply (stream_completion_returns _ _ Hk)|].
  split; [apply stream_body_unbound_local|].
  split; [|reflexivity].
  rewrite (generate_from_bound _ _ _ _ Hst), Hl.
  rewrite (for_lines_relayable _ _ Hpre).
  rewrite (for_lines_undecodable _ _ rest Hp Hs Hj).
  unfold yield_all, yield_then. simpl. rewrite <- app_assoc. reflexivity.
Qed.

Lemma C4_witness :
  payload undecodable_line = Some (dq "{'choices': [")
  /\ json_loads (dq "{'choices': [") = None
  /\ exists sr,
       stream_completion hello_request env_world = (env_world, Ok sr)
       /\ stream_body sr
            (answering (lines_answer [hi_line; undecodable_line; bye_line]))
            env_world
          = (env_world, {| emitted := []; outcome := Raised UnboundLocalError;
                           unread := [] |})
       /\ generate_from
            (Some (request_data (globals env_world) hello_request true))
            (SSL_VERIFY (globals env_world)) (body_iterator sr)
            (answering (lines_answer [hi_line; undecodable_line; bye_line]))
          = ([stream_call (SSL_VERIFY (globals env_world)) (body_iterator sr)
                (request_data (globals env_world) hello_request true)],
             {| emitted := [hi_event; parse_error_event; bye_event];
                outcome := Returned; unread := [] |})
       /\ finish_reason parse_error_event = VNone.
Proof.
  split; [reflexivity|]. split; [reflexivity|].
  apply (C4_undecodable_frame_not_relayed env_world hello_request
           (lines_answer [hi_line; undecodable_line; bye_line])
           (request_data (globals env_world) hello_request true)
           [hi_line] undecodable_line (dq "{'choices': [") [bye_line]);
    reflexivity.
Defined.

(** C7 (the code departs from it): with a key, [/stream] answers with a
    streaming response whose body never reaches the loop: whatever lines
    the upstream answer holds, the generator yields nothing and ends in
    [UnboundLocalError] before its call, so the events of the frames sent
    before the upstream closed are not relayed.  Were the local [data]
    bound, the generator would make its call and, on lines without the
    sentinel, return exactly when every line is relayable, having yielded
    the events of the data frames, one for each, and nothing else; on any
    other line it would raise. *)
Theorem C7_eof_nothing_relayed (w : World) (request : ChatRequest)
    (response : Response) (data : value) :
  truthy (API_KEY (globals w)) = true ->
  passes_status (status_code response) = true ->
  existsb sentinel_line (iter_lines response) = false ->
  exists sr,
    stream_completion request w = (w, Ok sr)
    /\ stream_body sr (answering response) w
       = (w, {| emitted := []; outcome := Raised UnboundLocalError;
                unread := [] |})
    /\ exists r,
         generate_from (Some data) (SSL_VERIFY (globals w)) (body_iterator sr)
                       (answering response)
         = ([stream_call (SSL_VERIFY (globals w)) (body_iterator sr) data], r)
         /\ (outcome r = Returned
             -> forallb relayable (iter_lines response) = true)
         /\ (forallb relayable (iter_lines response) = true
             -> r = {| emitted := expected_events (iter_lines response);
                       outcome := Returned; unread := [] |}
                /\ List.length (expected_events (iter_lines response))
                   = List.length (data_frames (iter_lines response))).
Proof.
  intros Hk Hst Hs. eexists.
  split; [apply (stream_completion_returns _ _ Hk)|].
  split; [apply stream_body_unbound_local|].
  exists (for_lines (iter_lines response)).
  split; [apply (generate_from_bound _ _ _ _ Hst)|]. split.
  - apply (for_lines_returned _ Hs).
  - intros Hr. split; [apply (for_lines_eof _ Hr)|].
    apply (expected_events_length _ Hr).
Qed.

Lemma C7_witness :
  exists sr,
    stream_completion hello_request env_world = (env_world, Ok sr)
    /\ stream_body sr
         (answering
            (lines_answer [hi_line; comment_line; undecodable_line; bye_line]))
         env_world
       = (env_world, {| emitted := []; outcome := Raised UnboundLocalError;
                        unread := [] |})
    /\ generate_from
         (Some (request_data (globals env_world) hello_request true))
         (SSL_VERIFY (globals env_world)) (body_iterator sr)
         (answering
            (lines_answer [hi_line; comment_line; undecodable_line; bye_line]))
       = ([stream_call (SSL_VERIFY (globals env_world)) (body_iterator sr)
             (request_data (globals env_world) hello_request true)],
          {| emitted := [hi_event; parse_error_event; bye_event];
             outcome := Returned; unread := [] |}).
Proof.
  destruct (C7_eof_nothing_relayed env_world hello_request
              (lines_answer [hi_line; comment_line; undecodable_line; bye_line])
              (request_data (globals env_world) hello_request true)
              eq_refl eq_refl eq_refl)
    as (sr & Hsr & Hbody & r & Hgen & _ & Hrun).
  exists sr. split; [exact Hsr|]. split; [exact Hbody|].
  destruct (Hrun eq_refl) as [Hr _]. rewrite Hgen, Hr. reflexivity.
Defined.

(** C9 (the code departs from it): with a key, [/stream] answers with a
    streaming response whose body never reaches the extraction: the
    generator ends in [UnboundLocalError], which is none of the exceptions
    of the extraction, before its call and before any frame is read.  Were
    the local [data] bound, the generator would make its call, and a data
    frame whose payload decodes to JSON without a first choice and a delta
    of the expected shape (an empty [choices] list above all, which gives
    [IndexError]) would make the extraction raise; the [except] clause
    names the decoding error only, so the exception would leave the
    generator after the events of the lines before the frame: no marker for
    the frame, no stop event, the lines after it unread. *)
Theorem C9_shape_error_not_reached (w : World) (request : ChatRequest)
    (response : Response) (data : value) (pre : list pybytes)
    (line : pybytes) (p : pystr) (chunk : value) (rest : list pybytes) :
  truthy (API_KEY (globals w)) = true ->
  passes_status (status_code response) = true ->
  iter_lines response = pre ++ line :: rest ->
  forallb relayable pre = true ->
  payload line = Some p ->
  json_loads p = Some chunk ->
  normalized chunk = None ->
  exists sr,
    stream_completion request w = (w, Ok sr)
    /\ stream_body sr (answering response) w
       = (w, {| emitted := []; outcome := Raised UnboundLocalError;
                unread := [] |})
    /\ ~ In UnboundLocalError shape_errors
    /\ exists x,
         In x shape_errors
         /\ (forall d, chunk = VDict d ->
                       lookup d (lit "choices") = Some (VList []) ->
                       x = IndexError)
         /\ generate_from (Some data) (SSL_VERIFY (globals w))
                          (body_iterator sr) (answering response)
            = ([stream_call (SSL_VERIFY (globals w)) (body_iterator sr) data],
               {| emitted := expected_events pre; outcome := Raised x;
                  unread := rest |}).
Proof.
  intros Hk Hst Hl Hpre Hp Hj Hn. eexists.
  split; [apply (stream_completion_returns _ _ Hk)|].
  split; [apply stream_body_unbound_local|].
  split.
  { simpl. intros [H|[H|[H|[H|[]]]]]; discriminate H. }
  destruct (for_lines_shape_error _ _ _ rest Hp Hj Hn) as (x & Hin & Hx & Hrun).
  exists x. split; [exact Hin|]. split; [exact Hx|].
  rewrite (generate_from_bound _ _ _ _ Hst), Hl.
  rewrite (for_lines_relayable _ _ Hpre), Hrun.
  unfold yield_all. simpl. rewrite app_nil_r. reflexivity.
Qed.

Lemma C9_witness :
  payload empty_choices_line = Some (dq "{'choices':[]}")
  /\ json_loads (dq "{'choices':[]}") = Some (VDict [(lit "choices", VList [])])
  /\ exists sr,
       stream_completion hello_request env_world = (env_world, Ok sr)
       /\ stream_body sr
            (answering
               (lines_answer [hi_line; empty_choices_line; bye_line; done_line]))
            env_world
          = (env_world, {| emitted := []; outcome := Raised UnboundLocalError;
                           unread := [] |})
       /\ generate_from
            (Some (request_data (globals env_world) hello_request true))
            (SSL_VERIFY (globals env_world)) (body_iterator sr)
            (answering
               (lines_answer [hi_line; empty_choices_line; bye_line; done_line]))
          = ([stream_call (SSL_VERIFY (globals env_world)) (body_iterator sr)
                (request_data (globals env_world) hello_request true)],
             {| emitted := [hi_event]; outcome := Raised IndexError;
                unread := [bye_line; done_line] |}).
Proof.
  split; [reflexivity|]. split; [reflexivity|].
  destruct (C9_shape_error_not_reached env_world hello_request
              (lines_answer [hi_line; empty_choices_line; bye_line; done_line])
              (request_data (globals env_world) hello_request true)
              [hi_line] empty_choices_line (dq "{'choices':[]}")
              (VDict [(lit "choices", VList [])]) [bye_line; done_line]
              eq_refl eq_refl eq_refl eq_refl eq_refl eq_refl eq_refl)
    as (sr & Hsr & Hbody & _ & x & _ & Hx & Hgen).
  exists sr. split; [exact Hsr|]. split; [exact Hbody|].
  rewrite (Hx _ eq_refl eq_refl) in Hgen. exact Hgen.
Defined.

(** ** Handlers: what they send *)

Lemma add_sent_nil (w : World) : add_sent w [] = w.
Proof. destruct w. unfold add_sent. simpl. rewrite app_nil_r. reflexivity. Qed.

Lemma sends_only_ret {A} (a : A) : sends_only (ret a) [].
Proof. intros w. simpl. symmetry. apply add_sent_nil. Qed.

Lemma sends_only_raise {A} (e : exn) : sends_only (@raise A e) [].
Proof. intros w. simpl. symmetry. apply add_sent_nil. Qed.

Lemma sends_only_lift {A} (r : result A) : sends_only (lift r) [].
Proof. intros w. simpl. symmetry. apply add_sent_nil. Qed.

Lemma sends_only_send (upstream : HttpRequest -> result Response)
    (call : HttpRequest) :
  sends_only (send upstream call) [call].
Proof. intros w. reflexivity. Qed.

(** A step that sends [calls], followed by steps that send nothing. *)
Lemma sends_only_bind {A B} (m : M A) (k : A -> M B)
    (calls : list HttpRequest) :
  sends_only m calls -> (forall a, sends_only (k a) []) ->
  sends_only (mbind m k) calls.
Proof.
  intros Hm Hk w. unfold mbind. specialize (Hm w).
  destruct (m w) as [w' [a|e]]; simpl in *.
  - rewrite (Hk a w'), add_sent_nil. exact Hm.
  - exact Hm.
Qed.

Lemma sends_only_try {A} (body : M A) (handler : exn -> M A)
    (calls : list HttpRequest) :
  sends_only body calls -> (forall e, sends_only (handler e) []) ->
  sends_only (try_except body handler) calls.
Proof.
  intros Hb Hh w. unfold try_except. specialize (Hb w).
  destruct (body w) as [w' [a|e]]; simpl in *.
  - exact Hb.
  - rewrite (Hh e w'), add_sent_nil. exact Hb.
Qed.

Lemma sends_only_except_RequestException {A} (e : exn) :
  sends_only (@except_RequestException A e) [].
Proof.
  unfold except_RequestException.
  destruct (is_RequestException e); apply sends_only_raise.
Qed.

Lemma header_authorization (key : pystr) :
  header (lit "Authorization") (auth_headers key)
  = Some (lit "Bearer " ++ key).
Proof. reflexivity. Qed.

(** With a key and without the stream flag, [/chat] makes exactly one call,
    and the call carries the global [API_KEY]. *)
Lemma chat_completion_sends (request : ChatRequest)
    (upstream : HttpRequest -> result Response) (w : World) :
  truthy (API_KEY (globals w)) = true ->
  is_true (stream request) = false ->
  exists call,
    fst (chat_completion request upstream w) = add_sent w [call]
    /\ req_url call = API_BASE (globals w) ++ lit "/chat/completions"
    /\ header (lit "Authorization") (req_headers call)
       = Some (lit "Bearer " ++ API_KEY (globals w)).
Proof.
  intros Hk Hs. eexists. split; [|split].
  - unfold chat_completion, mbind at 1, read_globals. rewrite Hk, Hs.
    cbv beta iota zeta. simpl negb. cbv iota.
    apply sends_only_try.
    + apply sends_only_bind; [apply sends_only_send|].
      intros response. replace (@nil HttpRequest) with ([] ++ @nil HttpRequest)
        by reflexivity.
      apply sends_only_bind; [apply sends_only_lift|]. intros _.
      apply sends_only_bind; [apply sends_only_lift|]. intros result.
      apply sends_only_lift.
    + intros e. apply sends_only_except_RequestException.
  - reflexivity.
  - apply header_authorization.
Qed.

(** ** The handlers and the key *)

(** C5 (the code departs from it): with a key configured and an upstream
    API that answers 401, [/stream] returns a streaming response with
    status 200 and has sent nothing; the generator then raises
    [UnboundLocalError] before its call.  Were its local [data] bound, the
    [HTTPError] of the 401 answer would be raised by the generator, after
    the handler and its [except] clause are left; in neither case does the
    handler raise the [HTTPException] that carries the upstream error. *)
Theorem C5_upstream_error_not_surfaced :
  exists sr,
    stream_completion hello_request env_world = (env_world, Ok sr)
    /\ response_status sr = 200
    /\ stream_body sr (answering unauthorized_answer) env_world
       = (env_world,
          {| emitted := []; outcome := Raised UnboundLocalError; unread := [] |})
    /\ forall data,
         snd (generate_from (Some data) (SSL_VERIFY (globals env_world))
                            (body_iterator sr) (answering unauthorized_answer))
         = {| emitted := []; outcome := Raised (HTTPError unauthorized_answer);
              unread := iter_lines unauthorized_answer |}.
Proof.
  eexists. split; [apply stream_completion_returns; reflexivity|].
  split; [reflexivity|]. split; [apply stream_body_unbound_local|].
  intros data. reflexivity.
Qed.

(** C6: without a key, [/chat] and [/stream] both raise the status 500
    exception of the missing key and leave the world as it was: no call has
    been sent, whatever the request and the upstream API are. *)
Theorem C6_missing_key_fails_before_io (w : World) (request : ChatRequest)
    (upstream : HttpRequest -> result Response) :
  truthy (API_KEY (globals w)) = false ->
  chat_completion request upstream w
  = (w, Raise (HTTPException 500 KeyNotConfigured))
  /\ stream_completion request w
     = (w, Raise (HTTPException 500 KeyNotConfigured)).
Proof.
  intros H. unfold chat_completion, stream_completion, mbind, read_globals.
  rewrite H. split; reflexivity.
Qed.

Lemma C6_witness :
  truthy (API_KEY (globals bare_world)) = false
  /\ chat_completion hello_request (answering chat_answer) bare_world
     = (bare_world, Raise (HTTPException 500 KeyNotConfigured))
  /\ stream_completion hello_request bare_world
     = (bare_world, Raise (HTTPException 500 KeyNotConfigured)).
Proof.
  split; [reflexivity|].
  apply (C6_missing_key_fails_before_io bare_world hello_request
           (answering chat_answer)).
  reflexivity.
Defined.

(** C8 (the code departs from it): in a process started with [sk-env] in
    the environment and [sk-file] in the file, [API_KEY] is the environment
    value and [/chat] sends it, while [/models] and [/balance] send the
    value of the file; with the key in the environment only, they send
    nothing and fail for want of a key. *)
Theorem C8_account_handlers_read_file_key :
  API_KEY (globals env_world) = lit "sk-env"
  /\ map (fun call => header (lit "Authorization") (req_headers call))
         (sent (fst (chat_completion hello_request (answering chat_answer)
                                     env_world)))
     = [Some (lit "Bearer sk-env")]
  /\ map (fun call => header (lit "Authorization") (req_headers call))
         (sent (fst (check_api_key (answering models_answer) env_world)))
     = [Some (lit "Bearer sk-env")]
  /\ map (fun call => header (lit "Authorization") (req_headers call))
         (sent (fst (list_models (answering models_answer) env_world)))
     = [Some (lit "Bearer sk-file")]
  /\ map (fun call => header (lit "Authorization") (req_headers call))
         (sent (fst (get_user_balance (answering models_answer) env_world)))
     = [Some (lit "Bearer sk-file")]
  /\ list_models (answering models_answer) env_only_world
     = (env_only_world,
        Raise (HTTPException 500
                 (ListModelsError (HTTPException 401 NoConfiguredKey))))
  /\ get_user_balance (answering models_answer) env_only_world
     = (env_only_world,
        Raise (HTTPException 500
                 (BalanceError (HTTPException 401 NoConfiguredKey)))).
Proof. repeat split; reflexivity. Qed.

(** C10: when the upstream API accepts the new key and the configuration
    file then cannot be saved, [set_api_key] answers [success=False] and
    yet leaves the new key in the global [API_KEY]; the configuration in
    memory is the old one.  From then on [/chat] sends the new key, and
    [/stream] builds its headers with it. *)
Theorem C10_key_kept_after_failed_save (w : World) (request : ApiKeyRequest)
    (upstream : HttpRequest -> result Response) (disk : Disk)
    (response : Response) (e : exn) :
  upstream (get_call (globals w) (config_api_base (globals w) ++ lit "/models")
                     (request_api_key request)) = Ok response ->
  status_code response = 200 ->
  save_fails disk e ->
  let w' := key_installed w request in
  set_api_key request upstream disk w
  = (w', Ok {| success := false; message_text := KeySaveFailed e |})
  /\ API_KEY (globals w') = request_api_key request
  /\ config (globals w') = config (globals w)
  /\ (truthy (request_api_key request) = true ->
      forall (chat : ChatRequest) (upstream' : HttpRequest -> result Response),
        (is_true (stream chat) = false ->
         exists call,
           fst (chat_completion chat upstream' w') = add_sent w' [call]
           /\ header (lit "Authorization") (req_headers call)
              = Some (lit "Bearer " ++ request_api_key request))
        /\ exists sr,
             stream_completion chat w' = (w', Ok sr)
             /\ header (lit "Authorization") (headers (body_iterator sr))
                = Some (lit "Bearer " ++ request_api_key request)).
Proof.
  intros Hup Hst Hsave w'. split; [|split; [reflexivity|split; [reflexivity|]]].
  - unfold set_api_key, try_except, mbind, read_globals, send, assign,
      write_globals, lift, ret.
    simpl. rewrite Hup, Hst. simpl.
    destruct Hsave as [Hr | (content & Hr & Hw)].
    + rewrite Hr. reflexivity.
    + rewrite Hr, Hw. reflexivity.
  - intros Hk chat upstream'. split.
    + intros Hs.
      destruct (chat_completion_sends chat upstream' w' Hk Hs)
        as (call & Hsent & _ & Hauth).
      exists call. split; [exact Hsent|exact Hauth].
    + eexists. split; [apply stream_completion_returns; exact Hk|].
      apply header_authorization.
Qed.

Lemma C10_witness :
  save_fails read_only_disk OSError
  /\ set_api_key {| request_api_key := lit "sk-new" |} (answering models_answer)
                 read_only_disk env_world
     = (key_installed env_world {| request_api_key := lit "sk-new" |},
        Ok {| success := false; message_text := KeySaveFailed OSError |})
  /\ API_KEY (globals (key_installed env_world
                                     {| request_api_key := lit "sk-new" |}))
     = lit "sk-new".
Proof.
  split; [right; exists (lit "deepseek:"); split; reflexivity|].
  pose proof (C10_key_kept_after_failed_save env_world
                {| request_api_key := lit "sk-new" |}
                (answering models_answer) read_only_disk models_answer OSError
                eq_refl eq_refl
                (or_intror (ex_intro _ (lit "deepseek:")
                                     (conj eq_refl eq_refl)))) as H.
  destruct H as (Hrun & Hkey & _). split; [exact Hrun|exact Hkey].
Defined.

(** ** The key at import time *)

(** With the variable unset and no key (or an empty one) in the file, the
    process starts without a key. *)
Lemma import_module_without_key (loaded : Config) :
  truthy (get_or (api_key (get_deepseek loaded)) []) = false ->
  truthy (API_KEY (import_module None loaded)) = false.
Proof. intros H. exact H. Qed.

(** A variable that is set wins over the file, even when it is empty. *)
Lemma import_module_environ (key : pystr) (loaded : Config) :
  API_KEY (import_module (Some key) loaded) = key.
Proof. reflexivity. Qed.

(** ** The loop on any input *)

Lemma loop_body_emits_data_frame (line : pybytes) (e : event) :
  loop_body line = Emit e \/ loop_body line = EmitBreak e ->
  is_data_frame line = true.
Proof.
  destruct line as [|b line]; [intros [H|H]; discriminate|].
  unfold loop_body, is_data_frame, payload.
  destruct (decode (b :: line)) as [s|]; [|intros [H|H]; discriminate].
  destruct (startswith (lit "data: ") s); [reflexivity|].
  intros [H|H]; discriminate.
Qed.

Lemma loop_body_break (line : pybytes) (e : event) :
  loop_body line = EmitBreak e ->
  e = stop_event /\ payload line = Some (lit "[DONE]").
Proof.
  destruct line as [|b line]; [discriminate|].
  unfold loop_body, payload.
  destruct (decode (b :: line)) as [s|]; [|discriminate].
  destruct (startswith (lit "data: ") s); [|discriminate].
  destruct (pystr_eqb (skipn 6 s) (lit "[DONE]")) eqn:Hd.
  - apply pystr_eqb_eq in Hd. rewrite Hd. intros H; injection H as <-. auto.
  - destruct (try_block (skipn 6 s)) as [?|[]]; discriminate.
Qed.

(** X1: the loop reads the lines in order and stops reading at the line that
    ends it.  The lines split into those read and those left unread; the
    loop yields no more events than there are data frames among the lines
    read; and a run that returns has read every line or has just read the
    sentinel. *)
Theorem for_lines_reads_in_order (lines : list pybytes) :
  exists consumed,
    lines = consumed ++ unread (for_lines lines)
    /\ (List.length (emitted (for_lines lines))
        <= List.length (data_frames consumed))%nat
    /\ (outcome (for_lines lines) = Returned ->
        unread (for_lines lines) = []
        \/ exists before line,
             consumed = before ++ [line]
             /\ payload line = Some (lit "[DONE]")).
Proof.
  induction lines as [|line lines (consumed & Hc & Hl & Ho)].
  - exists []. simpl. repeat split; auto.
  - simpl. destruct (loop_body line) as [|e|e|x] eqn:Hb.
    + exists (line :: consumed). split; [simpl; congruence|]. split.
      * unfold data_frames in *. simpl.
        destruct (is_data_frame line); simpl; lia.
      * intros Hr.
        destruct (Ho Hr) as [Hu|(before & l & Hbe & Hs)]; [left; exact Hu|].
        right. exists (line :: before), l. rewrite Hbe. auto.
    + exists (line :: consumed). split; [simpl; congruence|]. split.
      * pose proof (loop_body_emits_data_frame line e (or_introl Hb)) as Hd.
        unfold data_frames in *. simpl. rewrite Hd. simpl. lia.
      * simpl. intros Hr.
        destruct (Ho Hr) as [Hu|(before & l & Hbe & Hs)]; [left; exact Hu|].
        right. exists (line :: before), l. rewrite Hbe. auto.
    + exists [line]. split; [reflexivity|]. split.
      * pose proof (loop_body_emits_data_frame line e (or_intror Hb)) as Hd.
        unfold data_frames. simpl. rewrite Hd. simpl. lia.
      * intros _. right. exists [], line. split; [reflexivity|].
        apply (loop_body_break _ _ Hb).
    + exists [line]. split; [reflexivity|]. split; [simpl; lia|].
      simpl. discriminate.
Qed.

(** X2: the loop reads the data frames alone.  Of lines that are all UTF-8,
    those that do not start with the prefix (blank lines, comments, a frame
    written without the space) change neither the events nor the ending: the
    run over all lines yields what the run over the data frames among them
    yields. *)
Theorem loop_reads_data_frames_only (lines : list pybytes) :
  forallb is_utf8 lines = true ->
  emitted (for_lines lines) = emitted (for_lines (data_frames lines))
  /\ outcome (for_lines lines) = outcome (for_lines (data_frames lines)).
Proof.
  unfold data_frames.
  induction lines as [|line lines IH]; [split; reflexivity|].
  cbn [forallb]. intros H. apply andb_prop in H as [Hu H].
  specialize (IH H). destruct IH as [IHe IHo].
  unfold is_utf8 in Hu. destruct (decode line) as [s|] eqn:Hd; [|discriminate].
  assert (Hf : is_data_frame line = startswith (lit "data: ") s).
  { unfold is_data_frame, payload. rewrite Hd.
    destruct (startswith (lit "data: ") s); reflexivity. }
  cbn [filter]. rewrite Hf.
  destruct (startswith (lit "data: ") s) eqn:Hs.
  - cbn [for_lines].
    destruct (loop_body line); cbn [emitted outcome yield_then];
      split; congruence.
  - cbn [for_lines].
    assert (Hb : loop_body line = Skip).
    { destruct line as [|b line]; [reflexivity|].
      apply (loop_body_other _ _ Hd Hs). }
    rewrite Hb. auto.
Qed.

Lemma loop_reads_data_frames_only_witness :
  data_frames [comment_line; frame_without_space; hi_line; []; done_line;
               bye_line]
  = [hi_line; done_line; bye_line]
  /\ emitted (for_lines [comment_line; frame_without_space; hi_line; [];
                         done_line; bye_line])
     = emitted (for_lines [hi_line; done_line; bye_line]).
Proof.
  split; [reflexivity|].
  rewrite (proj1 (loop_reads_data_frames_only
                    [comment_line; frame_without_space; hi_line; [];
                     done_line; bye_line] eq_refl)).
  reflexivity.
Defined.

(** X3: in the loop of the generator a line that is not UTF-8 is not
    caught, data frame or not: after a run of relayable lines the events of
    those lines are yielded, then [UnicodeDecodeError] leaves the loop, no
    marker is yielded for the line and the lines after it stay unread.
    As written the generator does not get there: it raises
    [UnboundLocalError] before its call.  With its local [data] bound and
    an answer that passes [raise_for_status], the generator as a whole
    makes its one call and runs as the loop does. *)
Theorem loop_aborts_on_bad_utf8 (pre : list pybytes) (line : pybytes)
    (rest : list pybytes) (response : Response) (data : value)
    (verify : bool) (c : Closure) :
  forallb relayable pre = true ->
  decode line = None ->
  passes_status (status_code response) = true ->
  iter_lines response = pre ++ line :: rest ->
  for_lines (pre ++ line :: rest)
  = {| emitted := expected_events pre; outcome := Raised UnicodeDecodeError;
       unread := rest |}
  /\ generate_from (Some data) verify c (answering response)
     = ([stream_call verify c data],
        {| emitted := expected_events pre;
           outcome := Raised UnicodeDecodeError; unread := rest |})
  /\ generate verify c (answering response)
     = ([], {| emitted := []; outcome := Raised UnboundLocalError;
               unread := [] |}).
Proof.
  intros Hpre Hd Hst Hl.
  assert (Hrun : for_lines (pre ++ line :: rest)
                 = {| emitted := expected_events pre;
                      outcome := Raised UnicodeDecodeError; unread := rest |}).
  { rewrite (for_lines_relayable _ _ Hpre). simpl.
    destruct line as [|b line]; [discriminate Hd|].
    unfold loop_body. rewrite Hd. unfold yield_all. simpl.
    rewrite app_nil_r. reflexivity. }
  split; [exact Hrun|]. split; [|apply generate_unbound_local].
  rewrite (generate_from_bound _ _ _ _ Hst), Hl, Hrun. reflexivity.
Qed.

Lemma loop_aborts_on_bad_utf8_witness :
  decode latin1_line = None
  /\ for_lines [hi_line; latin1_line; done_line]
     = {| emitted := [hi_event]; outcome := Raised UnicodeDecodeError;
          unread := [done_line] |}
  /\ snd (generate_from
            (Some (request_data (globals env_world) hello_request true))
            false {| url := lit "u"; headers := [] |}
            (answering (lines_answer [hi_line; latin1_line; done_line])))
     = {| emitted := [hi_event]; outcome := Raised UnicodeDecodeError;
          unread := [done_line] |}.
Proof.
  split; [reflexivity|].
  destruct (loop_aborts_on_bad_utf8 [hi_line] latin1_line [done_line]
              (lines_answer [hi_line; latin1_line; done_line])
              (request_data (globals env_world) hello_request true)
              false {| url := lit "u"; headers := [] |}
              eq_refl eq_refl eq_refl eq_refl) as (Hloop & Hgen & _).
  split; [exact Hloop|]. rewrite Hgen. reflexivity.
Defined.

(** ** The text of a frame *)

Lemma forallb_printable_app (a b : pystr) :
  forallb printable (a ++ b) = forallb printable a && forallb printable b.
Proof. apply forallb_app. Qed.

Lemma hex_digit_printable (k : N) :
  (k < 16)%N -> printable (hex_digit k) = true.
Proof.
  intros H. unfold hex_digit, printable, in_range.
  destruct (k <? 10)%N eqn:E; apply andb_true_intro; split; apply N.leb_le;
    try (apply N.ltb_lt in E); try (apply N.ltb_ge in E); lia.
Qed.

Lemma u_escape_printable (n : N) : forallb printable (u_escape n) = true.
Proof.
  unfold u_escape. cbn [forallb].
  rewrite !hex_digit_printable by (apply N.mod_lt; discriminate).
  reflexivity.
Qed.

Lemma escape_char_printable (c : N) : forallb printable (escape_char c) = true.
Proof.
  unfold escape_char.
  repeat match goal with
  | |- context [if ?b then _ else _] => destruct b eqn:?
  end;
  try reflexivity;
  try apply u_escape_printable.
  - cbn [forallb]. unfold printable. rewrite Heqb1. reflexivity.
  - rewrite forallb_printable_app, !u_escape_printable. reflexivity.
Qed.

Lemma escaped_printable (s : pystr) :
  forallb printable (flat_map escape_char s) = true.
Proof.
  induction s as [|c s IH]; [reflexivity|].
  cbn [flat_map]. rewrite forallb_printable_app, escape_char_printable, IH.
  reflexivity.
Qed.

Lemma encode_basestring_ascii_printable (s : pystr) :
  forallb printable (encode_basestring_ascii s) = true.
Proof.
  unfold encode_basestring_ascii.
  rewrite !forallb_printable_app, escaped_printable. reflexivity.
Qed.

Lemma lit_String (c : ascii) (s : string) :
  lit (String c s) = Byte.to_N (byte_of_ascii c) :: lit s.
Proof. reflexivity. Qed.

Lemma string_of_uint_printable (d : Decimal.uint) :
  forallb printable (lit (NilEmpty.string_of_uint d)) = true.
Proof.
  induction d; cbn [NilEmpty.string_of_uint]; [reflexivity|..];
    rewrite lit_String; cbn [forallb]; rewrite IHd; reflexivity.
Qed.

Lemma int_repr_printable (z : Z) : forallb printable (int_repr z) = true.
Proof.
  unfold int_repr, NilZero.string_of_int, NilZero.string_of_uint.
  destruct (Z.to_int z) as [d|d].
  - destruct d; try reflexivity; apply string_of_uint_printable.
  - rewrite lit_String. cbn [forallb]. change (printable _) with true.
    cbn [andb].
    destruct d; try reflexivity; apply string_of_uint_printable.
Qed.

Ltac split_printable :=
  cbn [app forallb];
  repeat (rewrite forallb_printable_app; cbn [app forallb]).

Lemma forallb_firstn {A} (f : A -> bool) (n : nat) (l : list A) :
  forallb f l = true -> forallb f (firstn n l) = true.
Proof.
  revert l; induction n as [|n IH]; intros [|x l]; cbn [firstn forallb];
    try reflexivity.
  intros H. apply andb_prop in H as [Hx Hl]. rewrite Hx, (IH _ Hl).
  reflexivity.
Qed.

Lemma forallb_skipn {A} (f : A -> bool) (n : nat) (l : list A) :
  forallb f l = true -> forallb f (skipn n l) = true.
Proof.
  revert l; induction n as [|n IH]; intros [|x l]; cbn [skipn forallb];
    try reflexivity; try (intros H; exact H).
  intros H. apply andb_prop in H as [_ Hl]. apply (IH _ Hl).
Qed.

Lemma forallb_printable_rev (s : pystr) :
  forallb printable s = true -> forallb printable (rev s) = true.
Proof.
  induction s as [|c s IH]; [reflexivity|].
  cbn [rev forallb]. intros H. apply andb_prop in H as [Hc Hs].
  rewrite forallb_printable_app, (IH Hs). cbn [forallb]. rewrite Hc.
  reflexivity.
Qed.

Lemma strip_zeros_printable (s : pystr) :
  forallb printable s = true -> forallb printable (strip_zeros s) = true.
Proof.
  induction s as [|c s IH]; [reflexivity|].
  cbn [strip_zeros]. destruct (c =? 48)%N; [|intros H; exact H].
  cbn [forallb]. intros H. apply andb_prop in H as [_ Hs]. apply (IH Hs).
Qed.

Lemma repeat_zero_printable (n : nat) :
  forallb printable (repeat 48%N n) = true.
Proof. induction n as [|n IH]; [reflexivity|]. cbn [repeat forallb]. exact IH. Qed.

Lemma format_digits_printable (ds : pystr) (point : Z) :
  forallb printable ds = true ->
  forallb printable (format_digits ds point) = true.
Proof.
  intros H. unfold format_digits.
  destruct ((point <=? -4) || (16 <? point))%bool.
  - rewrite !forallb_printable_app, (forallb_firstn _ 1 _ H).
    pose proof (forallb_skipn _ 1 _ H) as Hs.
    destruct (skipn 1 ds) as [|t tail].
    + cbn [forallb andb].
      pose proof (int_repr_printable (Z.abs (point - 1))) as Hx.
      destruct (int_repr (Z.abs (point - 1))) as [|d [|d' exd]];
        destruct (point - 1 <? 0); cbn [forallb] in *;
        rewrite ?Hx; try reflexivity;
        apply andb_prop in Hx as [-> _]; reflexivity.
    + cbn [forallb] in *. rewrite Hs. cbn [andb].
      pose proof (int_repr_printable (Z.abs (point - 1))) as Hx.
      destruct (int_repr (Z.abs (point - 1))) as [|d [|d' exd]];
        destruct (point - 1 <? 0); cbn [forallb] in *;
        rewrite ?Hx; try reflexivity;
        apply andb_prop in Hx as [-> _]; reflexivity.
  - destruct (point <=? 0).
    + rewrite !forallb_printable_app, repeat_zero_printable, H. reflexivity.
    + destruct (Z.of_nat (List.length ds) <=? point).
      * rewrite !forallb_printable_app, repeat_zero_printable, H. reflexivity.
      * rewrite forallb_printable_app. cbn [forallb].
        rewrite (forallb_firstn _ _ _ H), (forallb_skipn _ _ _ H). reflexivity.
Qed.

(** The [repr] of a float is printable ASCII: digits, a point, a sign, the
    letter of the exponent, or one of the three names. *)
Lemma float_repr_printable (d : double) :
  forallb printable (float_repr d) = true.
Proof.
  destruct d as [s m e|[]|]; try reflexivity.
  unfold float_repr. rewrite forallb_printable_app.
  assert (Hs : forallb printable (if s then [45%N] else []) = true)
    by (destruct s; reflexivity).
  rewrite Hs. cbn [andb].
  destruct (m =? 0)%Z; [reflexivity|].
  destruct (shortest_digits m e (decimal_point (frac2 m e))) as [c n].
  apply format_digits_printable, forallb_printable_rev, strip_zeros_printable,
    forallb_printable_rev, int_repr_printable.
Qed.

(** What [json.dumps] writes is printable ASCII: with [ensure_ascii] every
    other character of a string is escaped. *)
Lemma json_dumps_printable :
  forall v : value, forallb printable (json_dumps v) = true.
Proof.
  fix IH 1. intros v. destruct v as [|[]| |l|s|xs|items]; cbn [json_dumps].
  - reflexivity.
  - reflexivity.
  - reflexivity.
  - apply int_repr_printable.
  - apply float_repr_printable.
  - apply encode_basestring_ascii_printable.
  - assert (Hel : forallb printable
                    ((fix elements (xs : list value) : pystr :=
                        match xs with
                        | [] => []
                        | [x] => json_dumps x
                        | x :: xs' => json_dumps x ++ lit ", " ++ elements xs'
                        end) xs) = true).
    { induction xs as [|x xs IHxs]; [reflexivity|].
      destruct xs as [|y ys]; [apply IH|].
      rewrite forallb_printable_app, (IH x).
      rewrite forallb_printable_app, IHxs. reflexivity. }
    rewrite !forallb_printable_app, Hel. reflexivity.
  - assert (Hel : forallb printable
                    ((fix members (items : list (pystr * value)) : pystr :=
                        match items with
                        | [] => []
                        | [(k, x)] =>
                            encode_basestring_ascii k ++ lit ": "
                            ++ json_dumps x
                        | (k, x) :: items' =>
                            (encode_basestring_ascii k ++ lit ": "
                             ++ json_dumps x)
                            ++ lit ", " ++ members items'
                        end) items) = true).
    { induction items as [|[k x] items IHitems]; [reflexivity|].
      destruct items as [|y ys].
      - rewrite !forallb_printable_app, encode_basestring_ascii_printable,
          (IH x). reflexivity.
      - rewrite forallb_printable_app, forallb_printable_app,
          encode_basestring_ascii_printable.
        rewrite forallb_printable_app, (IH x).
        rewrite forallb_printable_app, IHitems. reflexivity. }
    rewrite !forallb_printable_app, Hel. reflexivity.
Qed.

(** X4: every frame the generator can yield is the prefix, one line of
    printable ASCII and two line feeds: whatever the content and the
    finish reason hold, strings, numbers or nested values, no character of
    them can end the line or the frame early. *)
Theorem sse_frame_one_line (e : event) :
  sse_frame e = lit "data: " ++ json_dumps (event_dict e) ++ [10; 10]%N
  /\ forallb printable (json_dumps (event_dict e)) = true
  /\ no_line_feed (json_dumps (event_dict e)) = true.
Proof.
  split; [reflexivity|]. split; [apply json_dumps_printable|].
  pose proof (json_dumps_printable (event_dict e)) as H.
  unfold no_line_feed. rewrite forallb_forall in *.
  intros c Hc. specialize (H c Hc). unfold printable, in_range in H.
  apply andb_prop in H as [H _]. apply N.leb_le in H.
  apply negb_true_iff, N.eqb_neq. lia.
Qed.

(** ** [/chat] *)

(** X5: with a key, a request to [/chat] that sets [stream] is refused with
    status 400 before anything is sent, and the world is left as it was. *)
Theorem chat_rejects_stream_flag (w : World) (request : ChatRequest)
    (upstream : HttpRequest -> result Response) :
  truthy (API_KEY (globals w)) = true ->
  is_true (stream request) = true ->
  chat_completion request upstream w
  = (w, Raise (HTTPException 400 UseStreamEndpoint)).
Proof.
  intros Hk Hs. unfold chat_completion, mbind, read_globals.
  rewrite Hk, Hs. reflexivity.
Qed.

Lemma chat_rejects_stream_flag_witness :
  chat_completion
    {| messages := []; model := None; temperature := None; max_tokens := None;
       top_p := None; stream := Some true; json_mode := None |}
    (answering chat_answer) env_world
  = (env_world, Raise (HTTPException 400 UseStreamEndpoint)).
Proof.
  apply chat_rejects_stream_flag; reflexivity.
Defined.

Lemma chat_completion_run (w : World) (request : ChatRequest)
    (upstream : HttpRequest -> result Response) :
  truthy (API_KEY (globals w)) = true ->
  is_true (stream request) = false ->
  chat_completion request upstream w
  = (add_sent w [chat_call (globals w) request],
     caught_RequestException
       (bind (upstream (chat_call (globals w) request))
             (chat_reply (globals w) request))).
Proof.
  intros Hk Hs. unfold chat_completion, mbind at 1, read_globals.
  cbv beta iota. rewrite Hk, Hs. cbn [negb].
  fold (chat_call (globals w) request).
  unfold try_except, mbind, send, lift, chat_reply.
  destruct (upstream (chat_call (globals w) request)) as [response|e];
    cbn [bind].
  2:{ unfold except_RequestException, caught_RequestException, raise.
      destruct (is_RequestException e); reflexivity. }
  destruct (raise_for_status response) as [u|e]; cbn [bind].
  2:{ unfold except_RequestException, caught_RequestException, raise.
      destruct (is_RequestException e); reflexivity. }
  destruct (response_json response) as [answer|e]; cbn [bind].
  2:{ unfold except_RequestException, caught_RequestException, raise.
      destruct (is_RequestException e); reflexivity. }
  match goal with
  | |- match ?c with _ => _ end = _ => destruct c as [a|e]
  end.
  - reflexivity.
  - unfold except_RequestException, caught_RequestException, raise.
    destruct (is_RequestException e); reflexivity.
Qed.

(** X6: an upstream answer with a status from 400 to 599 makes [/chat] raise
    status 500 after its one call, whatever the upstream status was.  The
    detail never carries the upstream body: a response with such a status is
    false, so the branch that appends it is not taken. *)
Theorem chat_upstream_error_is_500 (w : World) (request : ChatRequest)
    (upstream : HttpRequest -> result Response) (response : Response) :
  truthy (API_KEY (globals w)) = true ->
  is_true (stream request) = false ->
  upstream (chat_call (globals w) request) = Ok response ->
  passes_status (status_code response) = false ->
  chat_completion request upstream w
  = (add_sent w [chat_call (globals w) request],
     Raise (HTTPException 500 (ApiCallFailed (HTTPError response) None))).
Proof.
  intros Hk Hs Hup Hst. rewrite (chat_completion_run _ _ _ Hk Hs), Hup.
  unfold passes_status in Hst. apply negb_false_iff in Hst.
  cbn [bind]. unfold chat_reply, raise_for_status. rewrite Hst. cbn [bind].
  unfold caught_RequestException, is_RequestException, error_detail,
    raise_for_status. rewrite Hst. reflexivity.
Qed.

Lemma chat_upstream_error_is_500_witness :
  passes_status (status_code unauthorized_answer) = false
  /\ snd (chat_completion hello_request (answering unauthorized_answer)
                          env_world)
     = Raise (HTTPException 500
                (ApiCallFailed (HTTPError unauthorized_answer) None)).
Proof.
  split; [reflexivity|].
  rewrite (chat_upstream_error_is_500 env_world hello_request
             (answering unauthorized_answer) unauthorized_answer);
    reflexivity.
Defined.

(** The first choice, as [first_choice] finds it, is what the two chains of
    [get] and subscript give. *)
Lemma first_choice_get (answer : value) (choice : dict) :
  first_choice answer = Some choice ->
  bind (py_get answer (lit "choices") (VList [VDict []])) py_item0
  = Ok (VDict choice).
Proof.
  unfold first_choice, py_get. destruct answer as [| | | | | |d]; try discriminate.
  destruct (lookup d (lit "choices")) as [[| | | | |[|[| | | | | |c] xs]|]|];
    try discriminate; intros H; injection H as <-; reflexivity.
Qed.

(** X7: an upstream answer that passes the status check and decodes to an
    object with a first choice, a message and a usage block of the expected
    shape is mapped field by field: the content from the message (empty when
    absent), the finish reason from the choice (null when absent), the token
    counts from the usage block (0 when absent), the model from the request
    or else the default; the same model and counts are handed to
    [log_api_call]. *)
Theorem chat_maps_answer (w : World) (request : ChatRequest)
    (upstream : HttpRequest -> result Response) (response : Response)
    (answer : value) (choice message usage : dict) :
  truthy (API_KEY (globals w)) = true ->
  is_true (stream request) = false ->
  upstream (chat_call (globals w) request) = Ok response ->
  passes_status (status_code response) = true ->
  json_loads (text response) = Some answer ->
  first_choice answer = Some choice ->
  message_of choice = Some message ->
  usage_of answer = Some usage ->
  chat_completion request upstream w
  = (add_sent w [chat_call (globals w) request],
     Ok (chat_result (globals w) request choice message usage)).
Proof.
  intros Hk Hs Hup Hst Hj Hc Hm Hu.
  rewrite (chat_completion_run _ _ _ Hk Hs), Hup.
  unfold passes_status in Hst. apply negb_true_iff in Hst.
  cbn [bind]. unfold chat_reply, raise_for_status, response_json.
  rewrite Hst, Hj. cbn [bind].
  pose proof (first_choice_get _ _ Hc) as Hg. unfold bind in Hg at 1.
  destruct (py_get answer (lit "choices") (VList [VDict []])) as [choices|];
    [|discriminate]. cbn [bind]. rewrite Hg. cbn [bind].
  unfold message_of in Hm. unfold usage_of in Hu.
  destruct answer as [| | | | | |d]; try discriminate.
  unfold py_get.
  destruct (lookup choice (lit "message")) as [[| | | | | |m]|];
    try discriminate; injection Hm as <-;
    destruct (lookup d (lit "usage")) as [[| | | | | |u]|];
    try discriminate; injection Hu as <-; reflexivity.
Qed.

Lemma chat_maps_answer_witness :
  snd (chat_completion hello_request (answering chat_answer) env_world)
  = Ok {| chat_body :=
            VDict [(lit "content", VStr (lit "hello!"));
                   (lit "model", VStr (lit "deepseek-chat"));
                   (lit "usage",
                    VDict [(lit "prompt_tokens", VInt 3);
                           (lit "completion_tokens", VInt 2);
                           (lit "total_tokens", VInt 5);
                           (lit "prompt_tokens_details",
                            VDict [(lit "cached_tokens", VInt 0)])]);
                   (lit "finish_reason", VStr (lit "stop"))];
          log_api_call := (lit "deepseek-chat", VInt 3, VInt 2) |}.
Proof.
  rewrite (chat_maps_answer env_world hello_request (answering chat_answer)
             chat_answer
             (VDict [(lit "choices",
                      VList [VDict [(lit "message",
                                     VDict [(lit "content",
                                             VStr (lit "hello!"))]);
                                    (lit "finish_reason", VStr (lit "stop"))]]);
                     (lit "usage",
                      VDict [(lit "prompt_tokens", VInt 3);
                             (lit "completion_tokens", VInt 2);
                             (lit "total_tokens", VInt 5)])])
             [(lit "message", VDict [(lit "content", VStr (lit "hello!"))]);
              (lit "finish_reason", VStr (lit "stop"))]
             [(lit "content", VStr (lit "hello!"))]
             [(lit "prompt_tokens", VInt 3); (lit "completion_tokens", VInt 2);
              (lit "total_tokens", VInt 5)]);
    reflexivity.
Defined.

(** X8: a decoded answer without a first choice of the expected shape makes
    the extraction of [/chat] raise one of the shape errors ([IndexError]
    for an empty [choices]); the [except] clause names [RequestException]
    only, so the exception leaves the handler as it is, without a status. *)
Theorem chat_shape_error_propagates (w : World) (request : ChatRequest)
    (upstream : HttpRequest -> result Response) (response : Response)
    (answer : value) :
  truthy (API_KEY (globals w)) = true ->
  is_true (stream request) = false ->
  upstream (chat_call (globals w) request) = Ok response ->
  passes_status (status_code response) = true ->
  json_loads (text response) = Some answer ->
  first_choice answer = None ->
  exists x,
    In x shape_errors
    /\ (forall d, answer = VDict d ->
                  lookup d (lit "choices") = Some (VList []) -> x = IndexError)
    /\ chat_completion request upstream w
       = (add_sent w [chat_call (globals w) request], Raise x).
Proof.
  intros Hk Hs Hup Hst Hj Hc.
  rewrite (chat_completion_run _ _ _ Hk Hs), Hup.
  unfold passes_status in Hst. apply negb_true_iff in Hst.
  cbn [bind]. unfold chat_reply, raise_for_status, response_json.
  rewrite Hst, Hj. cbn [bind].
  unfold first_choice in Hc. unfold py_get at 1, shape_errors.
  destruct answer as [| | | | | |d];
    try (eexists; split; [|split; [|reflexivity]];
         [simpl; tauto|intros; discriminate]).
  destruct (lookup d (lit "choices"))
    as [[| | | |[|c0 s]|[|[| | | |[|c0 s]| |c] xs]|]|] eqn:El;
    try discriminate;
    (eexists; split; [|split; [|reflexivity]];
     [simpl; tauto
     |intros d' Hd Hl; injection Hd as <-; try reflexivity; congruence]).
Qed.

Lemma chat_shape_error_propagates_witness :
  json_loads (text empty_choices_answer) = Some (VDict [(lit "choices", VList [])])
  /\ chat_completion hello_request (answering empty_choices_answer) env_world
     = (add_sent env_world [chat_call (globals env_world) hello_request],
        Raise IndexError).
Proof.
  split; [reflexivity|].
  destruct (chat_shape_error_propagates env_world hello_request
              (answering empty_choices_answer) empty_choices_answer
              (VDict [(lit "choices", VList [])])
              eq_refl eq_refl eq_refl eq_refl eq_refl eq_refl)
    as (x & _ & Hx & Hrun).
  rewrite (Hx _ eq_refl eq_refl) in Hrun. exact Hrun.
Defined.

(** X9: the chat handlers change no global.  [/stream] sends nothing itself;
    [/chat] sends nothing or its one call. *)
Theorem chat_handlers_frame (request : ChatRequest)
    (upstream : HttpRequest -> result Response) (w : World) :
  fst (stream_completion request w) = w
  /\ (fst (chat_completion request upstream w) = w
      \/ fst (chat_completion request upstream w)
         = add_sent w [chat_call (globals w) request]).
Proof.
  destruct (truthy (API_KEY (globals w))) eqn:Hk.
  - split.
    + unfold stream_completion, mbind, read_globals. cbv beta iota.
      rewrite Hk. reflexivity.
    + destruct (is_true (stream request)) eqn:Hs.
      * left. unfold chat_completion, mbind, read_globals.
        cbv beta iota. rewrite Hk, Hs. reflexivity.
      * right. rewrite (chat_completion_run _ _ _ Hk Hs). reflexivity.
  - split; [|left]; unfold stream_completion, chat_completion, mbind,
      read_globals; cbv beta iota; rewrite Hk; reflexivity.
Qed.

(** X10: the fields of the dict sent upstream.  The model and the sampling
    settings fall back from the request to the configuration to the
    constants; [stream] is there for [/stream] only; [top_p] and
    [response_format] are added when asked for and touch no other field. *)
Theorem request_data_fields (g : Globals) (request : ChatRequest)
    (streaming : bool) :
  exists data,
    request_data g request streaming = VDict data
    /\ lookup data (lit "model")
       = Some (VStr (model_or (model request) (DEFAULT_MODEL g)))
    /\ lookup data (lit "temperature")
       = Some (get_or (temperature request)
                 (get_or (set_temperature (default_settings (deepseek_config g)))
                         (VFloat (lit "1.0"))))
    /\ lookup data (lit "max_tokens")
       = Some (get_or (option_map VInt (max_tokens request))
                 (get_or (set_max_tokens (default_settings (deepseek_config g)))
                         (VInt 1000)))
    /\ lookup data (lit "stream")
       = (if streaming then Some (VBool true) else None)
    /\ lookup data (lit "top_p") = top_p request
    /\ lookup data (lit "response_format")
       = (if is_true (json_mode request)
          then Some (VDict [(lit "type", VStr (lit "json_object"))])
          else None).
Proof.
  unfold request_data. eexists. split; [reflexivity|].
  destruct (temperature request), (max_tokens request), (top_p request),
    (is_true (json_mode request)), streaming; repeat split.
Qed.

(** ** The account handlers *)

Lemma except_ClientError_500 {A} (other : exn -> message) (e : exn)
    (w : World) :
  exists m, @except_ClientError A other e w = (w, Raise (HTTPException 500 m)).
Proof. destruct e; eexists; reflexivity. Qed.

(** X11: whatever [list_models] and [get_user_balance] raise is an
    [HTTPException] with status 500: the missing key (raised with 401 inside
    the [try]), a refusal by the upstream API and a network error alike. *)
Theorem account_failures_are_500
    (upstream : HttpRequest -> result Response) (w : World) (e : exn) :
  snd (list_models upstream w) = Raise e
  \/ snd (get_user_balance upstream w) = Raise e ->
  exists m, e = HTTPException 500 m.
Proof.
  unfold list_models, get_user_balance, try_except. intros [H|H].
  - destruct (account_query (lit "/models") upstream w) as [w' [r|e']];
      [discriminate|].
    destruct (except_ClientError_500 (A:=Response) ListModelsError e' w')
      as (m & Hm).
    rewrite Hm in H. injection H as <-. exists m. reflexivity.
  - destruct (account_query (lit "/user/balance") upstream w) as [w' [r|e']];
      [discriminate|].
    destruct (except_ClientError_500 (A:=Response) BalanceError e' w')
      as (m & Hm).
    rewrite Hm in H. injection H as <-. exists m. reflexivity.
Qed.

Lemma account_failures_are_500_witness :
  snd (list_models (answering models_answer) env_only_world)
  = Raise (HTTPException 500
             (ListModelsError (HTTPException 401 NoConfiguredKey)))
  /\ exists m,
       HTTPException 500 (ListModelsError (HTTPException 401 NoConfiguredKey))
       = HTTPException 500 m.
Proof.
  split; [reflexivity|].
  apply (account_failures_are_500 (answering models_answer) env_only_world).
  left. reflexivity.
Defined.

(** X12: when the upstream API answers with a status other than 200,
    [list_models] has made its one call, with the key of the configuration,
    and raises status 500; the upstream status and body survive inside the
    detail only. *)
Theorem account_upstream_status_wrapped
    (upstream : HttpRequest -> result Response) (w : World)
    (response : Response) :
  truthy (file_key (globals w)) = true ->
  upstream (models_call (globals w) (file_key (globals w))) = Ok response ->
  status_code response <> 200 ->
  list_models upstream w
  = (add_sent w [models_call (globals w) (file_key (globals w))],
     Raise (HTTPException 500
              (ListModelsError
                 (HTTPException (status_code response)
                                (UpstreamRequestFailed (text response)))))).
Proof.
  intros Hk Hup Hst. unfold list_models, try_except, account_query, mbind,
    read_globals, send. fold (file_key (globals w)). rewrite Hk.
  fold (models_call (globals w) (file_key (globals w))). rewrite Hup.
  apply Z.eqb_neq in Hst. rewrite Hst. reflexivity.
Qed.

Lemma account_upstream_status_wrapped_witness :
  snd (list_models (answering unauthorized_answer) env_world)
  = Raise (HTTPException 500
             (ListModelsError
                (HTTPException 401
                   (UpstreamRequestFailed (text unauthorized_answer))))).
Proof.
  rewrite (account_upstream_status_wrapped (answering unauthorized_answer)
             env_world unauthorized_answer); [reflexivity..|].
  discriminate.
Defined.

(** ** [check_api_key] *)

(** X13: with neither [API_KEY] nor a key in the configuration,
    [check_api_key] answers not set and not valid, and sends nothing. *)
Theorem check_api_key_without_key
    (upstream : HttpRequest -> result Response) (w : World) :
  truthy (checked_key (globals w)) = false ->
  check_api_key upstream w
  = (w, Ok {| is_set := false; is_valid := false; status_message := KeyNotSet |}).
Proof.
  intros Hk. unfold check_api_key, try_except, mbind, read_globals.
  cbv beta iota. fold (file_key (globals w)). fold (checked_key (globals w)).
  rewrite Hk. reflexivity.
Qed.

Lemma check_api_key_without_key_witness :
  check_api_key (answering models_answer) bare_world
  = (bare_world,
     Ok {| is_set := false; is_valid := false; status_message := KeyNotSet |}).
Proof. apply check_api_key_without_key. reflexivity. Defined.

(** X14: with a key and an upstream answer, [check_api_key] makes one call
    with that key and answers set, and valid exactly when the status is 200;
    no upstream status makes it raise. *)
Theorem check_api_key_verdict
    (upstream : HttpRequest -> result Response) (w : World)
    (response : Response) :
  truthy (checked_key (globals w)) = true ->
  upstream (models_call (globals w) (checked_key (globals w))) = Ok response ->
  exists r,
    check_api_key upstream w
    = (add_sent w [models_call (globals w) (checked_key (globals w))], Ok r)
    /\ is_set r = true
    /\ is_valid r = (status_code response =? 200).
Proof.
  intros Hk Hup. unfold check_api_key, try_except, mbind, read_globals, send.
  cbv beta iota. fold (file_key (globals w)). fold (checked_key (globals w)).
  rewrite Hk. cbn [negb].
  fold (models_call (globals w) (checked_key (globals w))). rewrite Hup.
  destruct (status_code response =? 200); eexists; repeat split.
Qed.

Lemma check_api_key_verdict_witness :
  exists r,
    check_api_key (answering unauthorized_answer) env_world
    = (add_sent env_world [models_call (globals env_world) (lit "sk-env")],
       Ok r)
    /\ is_set r = true /\ is_valid r = false.
Proof.
  apply (check_api_key_verdict (answering unauthorized_answer) env_world
           unauthorized_answer); reflexivity.
Defined.

(** X15: a network error during the check is answered, not raised: set, not
    valid, with the error in the message. *)
Theorem check_api_key_network_error
    (upstream : HttpRequest -> result Response) (w : World) :
  truthy (checked_key (globals w)) = true ->
  upstream (models_call (globals w) (checked_key (globals w)))
  = Raise ClientError ->
  check_api_key upstream w
  = (add_sent w [models_call (globals w) (checked_key (globals w))],
     Ok {| is_set := true; is_valid := false;
           status_message := KeyNetworkError ClientError |}).
Proof.
  intros Hk Hup. unfold check_api_key, try_except, mbind, read_globals, send.
  cbv beta iota. fold (file_key (globals w)). fold (checked_key (globals w)).
  rewrite Hk. cbn [negb].
  fold (models_call (globals w) (checked_key (globals w))). rewrite Hup.
  reflexivity.
Qed.

Lemma check_api_key_network_error_witness :
  snd (check_api_key unreachable_upstream env_world)
  = Ok {| is_set := true; is_valid := false;
          status_message := KeyNetworkError ClientError |}.
Proof.
  rewrite (check_api_key_network_error unreachable_upstream env_world);
    reflexivity.
Defined.

(** ** [set_api_key] *)

(** The run of [set_api_key], by the answer to the validation call and the
    state of the file. *)
Lemma set_api_key_run (request : ApiKeyRequest)
    (upstream : HttpRequest -> result Response) (disk : Disk) (w : World) :
  let call := models_call (globals w) (request_api_key request) in
  set_api_key request upstream disk w
  = match upstream call with
    | Raise e =>
        (add_sent w [call],
         Raise (HTTPException 500
                  (match e with
                   | ClientError => RequestError e
                   | _ => SetKeyError e
                   end)))
    | Ok response =>
        if status_code response =? 200 then
          match read_text disk, write_text disk with
          | Ok _, Ok _ =>
              ({| globals :=
                    set_config (load_config disk)
                      (set_API_KEY (request_api_key request) (globals w));
                  sent := sent w ++ [call] |},
               Ok {| success := true; message_text := KeySaved |})
          | Ok _, Raise e | Raise e, _ =>
              (key_installed w request,
               Ok {| success := false; message_text := KeySaveFailed e |})
          end
        else
          (add_sent w [call],
           Ok {| success := false;
                 message_text :=
                   KeyInvalid (upstream_error_message (text response)) |})
    end.
Proof.
  intros call. unfold set_api_key, try_except, mbind, read_globals, send,
    assign, write_globals, lift, ret, mbind, read_globals.
  cbv beta iota. fold (models_call (globals w) (request_api_key request)).
  fold call. destruct (upstream call) as [response|e].
  - destruct (status_code response =? 200); [|reflexivity].
    cbn [negb globals sent].
    destruct (read_text disk) as [content|e]; [|reflexivity].
    destruct (write_text disk) as [[]|e]; reflexivity.
  - destruct e; reflexivity.
Qed.

(** X16: unless the upstream API answers the validation call with status
    200, [set_api_key] changes no global and never answers success; its only
    trace is the call it sent. *)
Theorem set_api_key_needs_validation (request : ApiKeyRequest)
    (upstream : HttpRequest -> result Response) (disk : Disk) (w : World) :
  (forall response,
     upstream (models_call (globals w) (request_api_key request)) = Ok response ->
     status_code response <> 200) ->
  fst (set_api_key request upstream disk w)
  = add_sent w [models_call (globals w) (request_api_key request)]
  /\ forall r, snd (set_api_key request upstream disk w) = Ok r ->
               success r = false.
Proof.
  intros H. rewrite set_api_key_run. cbv zeta.
  destruct (upstream (models_call (globals w) (request_api_key request)))
    as [response|e].
  - specialize (H response eq_refl). apply Z.eqb_neq in H. rewrite H.
    split; [reflexivity|]. intros r Hr. injection Hr as <-. reflexivity.
  - split; [reflexivity|]. discriminate.
Qed.

Lemma set_api_key_needs_validation_witness :
  status_code unauthorized_answer <> 200
  /\ globals (fst (set_api_key {| request_api_key := lit "sk-new" |}
                               (answering unauthorized_answer) writable_disk
                               env_world))
     = globals env_world.
Proof.
  split; [discriminate|].
  destruct (set_api_key_needs_validation {| request_api_key := lit "sk-new" |}
              (answering unauthorized_answer) writable_disk env_world)
    as [Hw _].
  - intros response H. injection H as <-. discriminate.
  - rewrite Hw. reflexivity.
Defined.

(** X17: when the validation call is answered with 200 and the file is read
    and written, [set_api_key] answers success; [API_KEY] is then the key of
    the request, [config] what [load_config()] returns after the write, and
    the validation call the only call. *)
Theorem set_api_key_saves (request : ApiKeyRequest)
    (upstream : HttpRequest -> result Response) (disk : Disk) (w : World)
    (response : Response) (content : pystr) :
  upstream (models_call (globals w) (request_api_key request)) = Ok response ->
  status_code response = 200 ->
  read_text disk = Ok content ->
  write_text disk = Ok tt ->
  let w' := fst (set_api_key request upstream disk w) in
  snd (set_api_key request upstream disk w)
  = Ok {| success := true; message_text := KeySaved |}
  /\ API_KEY (globals w') = request_api_key request
  /\ config (globals w') = load_config disk
  /\ sent w' = sent w ++ [models_call (globals w) (request_api_key request)].
Proof.
  intros Hup Hst Hr Hw. rewrite set_api_key_run. cbv zeta.
  rewrite Hup, Hst, Hr, Hw. repeat split.
Qed.

Lemma set_api_key_saves_witness :
  snd (set_api_key {| request_api_key := lit "sk-new" |}
                   (answering models_answer) writable_disk env_world)
  = Ok {| success := true; message_text := KeySaved |}
  /\ API_KEY (globals (fst (set_api_key {| request_api_key := lit "sk-new" |}
                                        (answering models_answer)
                                        writable_disk env_world)))
     = lit "sk-new".
Proof.
  destruct (set_api_key_saves {| request_api_key := lit "sk-new" |}
              (answering models_answer) writable_disk env_world
              models_answer (lit "deepseek:")
              eq_refl eq_refl eq_refl eq_refl) as (Hs & Hk & _).
  split; [exact Hs|exact Hk].
Defined.

(** X18: whatever happens, [set_api_key] makes exactly its one call and
    leaves the globals computed at import time as they are; [API_KEY] and
    [config] keep their value or take the new one. *)
Theorem set_api_key_frame (request : ApiKeyRequest)
    (upstream : HttpRequest -> result Response) (disk : Disk) (w : World) :
  let w' := fst (set_api_key request upstream disk w) in
  sent w' = sent w ++ [models_call (globals w) (request_api_key request)]
  /\ deepseek_config (globals w') = deepseek_config (globals w)
  /\ API_BASE (globals w') = API_BASE (globals w)
  /\ DEFAULT_MODEL (globals w') = DEFAULT_MODEL (globals w)
  /\ SSL_VERIFY (globals w') = SSL_VERIFY (globals w)
  /\ (API_KEY (globals w') = API_KEY (globals w)
      \/ API_KEY (globals w') = request_api_key request)
  /\ (config (globals w') = config (globals w)
      \/ config (globals w') = load_config disk).
Proof.
  rewrite set_api_key_run. cbv zeta.
  destruct (upstream (models_call (globals w) (request_api_key request)))
    as [response|e].
  - destruct (status_code response =? 200).
    + destruct (read_text disk) as [content|e];
        [destruct (write_text disk) as [[]|e]|]; simpl; tauto.
    + simpl; tauto.
  - simpl; tauto.
Qed.

(** X19: with [DEEPSEEK_API_KEY] set to the empty string, [os.environ.get]
    returns it and not the default, so the key of the file is not used:
    [/chat] and [/stream] fail with the status 500 of a missing key and send
    nothing, while [check_api_key] still tries the key of the file. *)
Theorem empty_environ_disables_chat (loaded : Config) (calls : list HttpRequest)
    (request : ChatRequest) (upstream : HttpRequest -> result Response) :
  let w := {| globals := import_module (Some []) loaded; sent := calls |} in
  chat_completion request upstream w
  = (w, Raise (HTTPException 500 KeyNotConfigured))
  /\ stream_completion request w
     = (w, Raise (HTTPException 500 KeyNotConfigured))
  /\ checked_key (globals w) = get_or (api_key (get_deepseek loaded)) [].
Proof. repeat split. Qed.

(** ** [update_yaml_field]: lines *)

Lemma split_lines_nonempty (content : pystr) : split_lines content <> [].
Proof.
  destruct content as [|c rest]; simpl; [discriminate|].
  destruct (c =? 10)%N; [discriminate|].
  destruct (split_lines rest); discriminate.
Qed.

Lemma join_lines_cons (line : pystr) (rest : list pystr) :
  rest <> [] -> join_lines (line :: rest) = line ++ 10%N :: join_lines rest.
Proof. destruct rest; [congruence|reflexivity]. Qed.

Lemma join_lines_head (c : N) (line : pystr) (rest : list pystr) :
  join_lines ((c :: line) :: rest) = c :: join_lines (line :: rest).
Proof. destruct rest; reflexivity. Qed.

(** Joining the lines of a text gives the text back. *)
Lemma join_split (content : pystr) : join_lines (split_lines content) = content.
Proof.
  induction content as [|c rest IH]; [reflexivity|]. cbn [split_lines].
  pose proof (split_lines_nonempty rest) as Hne.
  destruct (c =? 10)%N eqn:Hc.
  - apply N.eqb_eq in Hc. subst c.
    rewrite (join_lines_cons _ _ Hne), IH. reflexivity.
  - destruct (split_lines rest) as [|l ls]; [congruence|].
    rewrite join_lines_head, IH. reflexivity.
Qed.

Lemma lstrip_length (line : pystr) :
  (List.length (lstrip line) <= List.length line)%nat.
Proof.
  induction line as [|c rest IH]; simpl; [lia|].
  destruct (isspace c); simpl; lia.
Qed.

Lemma replace_in_block_length (pi ti : nat) (name : pystr)
    (v : option pystr) (tail out : list pystr) :
  replace_in_block pi ti name v tail = Some out ->
  List.length out = List.length tail.
Proof.
  revert out; induction tail as [|line rest IH]; intros out; simpl;
    [discriminate|].
  destruct (is_blank line || is_comment line || (pi <? indent_count line)%nat);
    [|discriminate].
  destruct (field_match ti name line).
  - intros H; injection H as <-. reflexivity.
  - destruct (replace_in_block pi ti name v rest) as [r|]; [|discriminate].
    intros H; injection H as <-. simpl. f_equal. apply IH. reflexivity.
Qed.

(** The second loop adds at most one line and removes none; when it leaves
    [field_found] false it has changed nothing. *)
Lemma update_loop_length (fuel : nat) (path : list pystr) (v : option pystr)
    (lines : list pystr) (found : bool) :
  let out := fst (update_loop fuel path v lines found) in
  let found' := snd (update_loop fuel path v lines found) in
  (List.length lines <= List.length out <= List.length lines + 1)%nat
  /\ (found' = false -> out = lines /\ found = false).
Proof.
  revert lines found. induction fuel as [|fuel IH]; intros lines found.
  - simpl. destruct lines; simpl; split; try lia; auto.
  - destruct lines as [|line rest]; [simpl; split; try lia; auto|].
    cbn [update_loop].
    assert (Hcont : forall rest' f,
      List.length rest' = List.length rest ->
      (f = false -> rest' = rest /\ found = false) ->
      let r := (let (out, found') := update_loop fuel path v rest' f in
                (line :: out, found')) in
      (List.length (line :: rest) <= List.length (fst r)
       <= List.length (line :: rest) + 1)%nat
      /\ (snd r = false -> fst r = line :: rest /\ found = false)).
    { intros rest' f Hlen Hf. specialize (IH rest' f).
      destruct (update_loop fuel path v rest' f) as [out found'].
      cbn [fst snd] in *. destruct IH as [Hl Hn]. split.
      - simpl. lia.
      - intros ->. destruct (Hn eq_refl) as [-> ->].
        destruct (Hf eq_refl) as [-> ->]. auto. }
    destruct (is_blank line || is_comment line).
    { apply Hcont; auto. }
    match goal with |- context [if ?c then _ else _] => destruct c end.
    + destruct (replace_in_block _ _ _ _ rest) as [rest'|] eqn:Er.
      * apply Hcont; [apply (replace_in_block_length _ _ _ _ _ _ Er)|].
        discriminate.
      * destruct found.
        -- apply Hcont; auto.
        -- cbn [fst snd]. split; [simpl; lia|discriminate].
    + match goal with |- context [if ?c then _ else _] => destruct c end.
      * cbn [fst snd]. split; [simpl; lia|discriminate].
      * apply Hcont; auto.
Qed.

(** The fuel of the second loop: the number of lines left is enough, and
    more changes nothing. *)
Lemma update_loop_fuel (fuel : nat) (path : list pystr) (v : option pystr)
    (lines : list pystr) (found : bool) :
  (List.length lines <= fuel)%nat ->
  update_loop fuel path v lines found
  = update_loop (List.length lines) path v lines found.
Proof.
  revert lines found. induction fuel as [|fuel IH]; intros lines found Hf.
  - destruct lines; [reflexivity|simpl in Hf; lia].
  - destruct lines as [|line rest]; [reflexivity|].
    cbn [List.length] in *. cbn [update_loop].
    assert (Hcont : forall rest' f,
      List.length rest' = List.length rest ->
      (let (out, found') := update_loop fuel path v rest' f in
       (line :: out, found'))
      = (let (out, found') :=
           update_loop (List.length rest) path v rest' f in
         (line :: out, found'))).
    { intros rest' f Hlen. rewrite (IH rest' f) by lia.
      rewrite Hlen. reflexivity. }
    destruct (is_blank line || is_comment line); [apply Hcont; reflexivity|].
    match goal with |- context [if ?c then _ else _] => destruct c end.
    + destruct (replace_in_block _ _ _ _ rest) as [rest'|] eqn:Er.
      * apply Hcont. apply (replace_in_block_length _ _ _ _ _ _ Er).
      * destruct found; [apply Hcont|]; reflexivity.
    + match goal with |- context [if ?c then _ else _] => destruct c end;
        [reflexivity|apply Hcont; reflexivity].
Qed.

Lemma missing_lines_length (path : list pystr) (k : nat) (v : option pystr) :
  List.length (missing_lines path k v) = (List.length path - k)%nat.
Proof. unfold missing_lines. rewrite length_map, length_seq. reflexivity. Qed.

Lemma split_lines_length (s : pystr) :
  List.length (split_lines s) = S (line_feeds s).
Proof.
  unfold line_feeds. induction s as [|c rest IH]; [reflexivity|].
  cbn [split_lines filter]. destruct (c =? 10)%N.
  - simpl. rewrite IH. reflexivity.
  - pose proof (split_lines_nonempty rest) as Hne.
    destruct (split_lines rest) as [|l ls]; [congruence|].
    simpl in *. exact IH.
Qed.

Lemma line_feeds_app (a b : pystr) :
  line_feeds (a ++ b) = (line_feeds a + line_feeds b)%nat.
Proof. unfold line_feeds. rewrite filter_app, length_app. reflexivity. Qed.

Lemma line_feeds_join (lines : list pystr) :
  (List.length lines <= S (line_feeds (join_lines lines)))%nat.
Proof.
  induction lines as [|line rest IH]; [simpl; lia|].
  destruct rest as [|next rest]; [simpl; lia|].
  rewrite join_lines_cons by discriminate.
  rewrite line_feeds_app. change (10%N :: join_lines (next :: rest))
    with ([10%N] ++ join_lines (next :: rest)).
  rewrite line_feeds_app. cbn [List.length] in *.
  change (line_feeds [10%N]) with 1%nat. lia.
Qed.

(** X20: for names the patterns read as plain text, an empty path is an
    [IndexError] at the first index; otherwise [update_yaml_field] returns,
    and its text has at least as many lines as the text given: no line is
    removed, with a value or with [None]. *)
Theorem update_yaml_field_keeps_lines (content : pystr) (path : list pystr)
    (v : option pystr) :
  forallb plain_name path = true ->
  match update_yaml_field content path v with
  | Raise e => path = [] /\ e = IndexError
  | Ok out =>
      path <> []
      /\ (List.length (split_lines content)
          <= List.length (split_lines out))%nat
  end.
Proof.
  intros _. unfold update_yaml_field, update_lines.
  destruct path as [|a path]; [simpl; auto|].
  set (lines := split_lines content).
  destruct (negb (forallb (fun found => found)
                           (find_parents (a :: path) lines))).
  - cbn [bind]. split; [discriminate|].
    rewrite split_lines_length.
    eapply Nat.le_trans; [|apply line_feeds_join].
    rewrite !length_app.
    pose proof (firstn_skipn (insert_pos_from 0 lines) lines) as Hfs.
    apply (f_equal (@List.length pystr)) in Hfs. rewrite length_app in Hfs.
    lia.
  - pose proof (update_loop_length (List.length lines) (a :: path) v lines false)
      as [Hl Hn].
    destruct (update_loop (List.length lines) (a :: path) v lines false)
      as [lines' found]. cbn [fst snd] in *. cbn [bind].
    split; [discriminate|].
    rewrite split_lines_length.
    eapply Nat.le_trans; [|apply line_feeds_join].
    destruct found; [lia|]. rewrite length_app. lia.
Qed.

Lemma update_yaml_field_keeps_lines_witness :
  update_yaml_field config_with_key [] None = Raise IndexError
  /\ exists out,
       update_yaml_field config_with_key [lit "server"; lit "port"] None = Ok out
       /\ (6 <= List.length (split_lines out))%nat.
Proof.
  split.
  - pose proof (update_yaml_field_keeps_lines config_with_key [] None eq_refl)
      as H.
    destruct (update_yaml_field config_with_key [] None) as [out|e].
    + destruct H as [H _]. congruence.
    + destruct H as [_ ->]. reflexivity.
  - pose proof (update_yaml_field_keeps_lines config_with_key
                  [lit "server"; lit "port"] None eq_refl) as H.
    destruct (update_yaml_field config_with_key [lit "server"; lit "port"] None)
      as [out|e].
    + exists out. split; [reflexivity|]. destruct H as [_ H]. exact H.
    + destruct H as [H _]. discriminate H.
Defined.

(** ** [update_yaml_field]: a field in a section *)

(** The first loop on a path of two: the section is found when a line
    declares it. *)
Lemma find_parents_two (a b : pystr) (lines : list pystr) :
  find_parents [a; b] lines = [true; existsb (declares a) lines].
Proof.
  unfold find_parents. cbn [List.length repeat Nat.sub].
  assert (H : forall acc,
    fold_left (mark_parent [a; b]) lines [true; acc]
    = [true; acc || existsb (declares a) lines]).
  { induction lines as [|line rest IH]; intros acc; cbn [fold_left existsb].
    - rewrite orb_false_r. reflexivity.
    - unfold mark_parent at 2, declares at 1. cbn [List.length Nat.sub].
      destruct (is_blank line || is_comment line); cbn [negb andb orb].
      + apply IH.
      + destruct (indent_count line / 2)%nat as [|n] eqn:El.
        * cbn [Nat.ltb Nat.leb Nat.eqb nth andb Nat.add].
          destruct (key_match a line); cbn [list_set orb].
          -- rewrite IH, orb_true_r. reflexivity.
          -- apply IH.
        * cbn [Nat.ltb Nat.leb Nat.eqb andb orb]. apply IH. }
  rewrite H. reflexivity.
Qed.

(** The second loop walks over lines that do not declare the section
    without a change. *)
Lemma update_loop_no_section (fuel : nat) (a b : pystr) (v : option pystr)
    (lines : list pystr) (found : bool) :
  existsb (declares a) lines = false ->
  update_loop fuel [a; b] v lines found = (lines, found).
Proof.
  revert lines. induction fuel as [|fuel IH]; intros lines H.
  - destruct lines; reflexivity.
  - destruct lines as [|line rest]; [reflexivity|].
    cbn [existsb] in H. apply orb_false_elim in H as [Hl Hr].
    cbn [update_loop List.length Nat.sub nth]. rewrite (IH rest Hr).
    unfold declares in Hl.
    destruct (is_blank line || is_comment line); [reflexivity|].
    cbn [negb andb] in Hl. cbn [Nat.ltb Nat.leb andb].
    rewrite andb_true_r, Hl. reflexivity.
Qed.

Lemma update_loop_skip (a b : pystr) (v : option pystr)
    (pre rest : list pystr) (fuel : nat) (found : bool) :
  existsb (declares a) pre = false ->
  update_loop (List.length pre + fuel) [a; b] v (pre ++ rest) found
  = (pre ++ fst (update_loop fuel [a; b] v rest found),
     snd (update_loop fuel [a; b] v rest found)).
Proof.
  induction pre as [|line pre IH]; intros H.
  - simpl. destruct (update_loop fuel [a; b] v rest found); reflexivity.
  - cbn [existsb] in H. apply orb_false_elim in H as [Hl Hr].
    cbn [List.length Nat.add app update_loop Nat.sub nth].
    rewrite (IH Hr). cbn [fst snd]. unfold declares in Hl.
    destruct (is_blank line || is_comment line); [reflexivity|].
    cbn [negb andb] in Hl. cbn [Nat.ltb Nat.leb andb].
    rewrite andb_true_r, Hl. reflexivity.
Qed.

(** The second loop at a line that declares the section. *)
Lemma update_loop_section (fuel : nat) (a b : pystr) (v : option pystr)
    (parent : pystr) (rest : list pystr) (found : bool) :
  declares a parent = true ->
  update_loop (S fuel) [a; b] v (parent :: rest) found
  = match replace_in_block (indent_count parent) 2 b v rest with
    | Some rest' =>
        (parent :: fst (update_loop fuel [a; b] v rest' true),
         snd (update_loop fuel [a; b] v rest' true))
    | None =>
        if found
        then (parent :: fst (update_loop fuel [a; b] v rest found),
              snd (update_loop fuel [a; b] v rest found))
        else (parent :: field_line 2 b v :: rest, true)
    end.
Proof.
  intros H. unfold declares in H.
  apply andb_prop in H as [H Hk]. apply andb_prop in H as [Hs Hl].
  apply negb_true_iff in Hs.
  cbn [update_loop List.length Nat.sub nth last Nat.mul Nat.add].
  rewrite Hs. cbn [Nat.ltb Nat.leb andb]. rewrite andb_true_r, Hl, Hk.
  cbn [andb].
  destruct (replace_in_block (indent_count parent) 2 b v rest) as [rest'|].
  - destruct (update_loop fuel [a; b] v rest' true); reflexivity.
  - destruct found; [|reflexivity].
    destruct (update_loop fuel [a; b] v rest true); reflexivity.
Qed.

Lemma indent_count_two (s : pystr) :
  (2 <= indent_count (32%N :: 32%N :: s))%nat.
Proof.
  unfold indent_count. cbn [lstrip]. change (isspace 32) with true.
  cbn iota. pose proof (lstrip_length s). cbn [List.length]. lia.
Qed.

Lemma startswith_app (p s : pystr) :
  startswith p s = true -> s = p ++ skipn (List.length p) s.
Proof.
  revert s; induction p as [|c p IH]; intros [|d s]; simpl; try discriminate;
    [reflexivity..|].
  intros H. apply andb_prop in H as [Hc Hp]. apply N.eqb_eq in Hc. subst d.
  f_equal. apply IH, Hp.
Qed.

(** A line that holds the field at two spaces is indented by two at
    least. *)
Lemma field_match_indent (b line : pystr) :
  field_match 2 b line = true -> (2 <= indent_count line)%nat.
Proof.
  unfold field_match. intros H. apply andb_prop in H as [H _].
  apply startswith_app in H. rewrite H. apply indent_count_two.
Qed.

Lemma declares_indent (a line : pystr) :
  declares a line = true -> (indent_count line < 2)%nat.
Proof.
  unfold declares. intros H. apply andb_prop in H as [H _].
  apply andb_prop in H as [_ H]. apply Nat.eqb_eq in H.
  apply Nat.div_small_iff in H; lia.
Qed.

Lemma field_line_not_declares (a b : pystr) (v : option pystr) :
  declares a (field_line 2 b v) = false.
Proof.
  destruct (declares a (field_line 2 b v)) eqn:H; [|reflexivity].
  apply declares_indent in H.
  pose proof (indent_count_two (b ++ [58%N; 32%N] ++ value_str v)) as H2.
  change (field_line 2 b v)
    with (32%N :: 32%N :: b ++ [58%N; 32%N] ++ value_str v) in H. lia.
Qed.

Lemma replace_in_block_found (pi : nat) (b : pystr) (v : option pystr)
    (block : list pystr) (old : pystr) (post : list pystr) :
  forallb (fun l => (is_blank l || is_comment l || (pi <? indent_count l)%nat)
                    && negb (field_match 2 b l)) block = true ->
  field_match 2 b old = true ->
  (pi < 2)%nat ->
  replace_in_block pi 2 b v (block ++ old :: post)
  = Some (block ++ field_line 2 b v :: post).
Proof.
  intros Hb Ho Hp. induction block as [|l block IH]; cbn [app replace_in_block].
  - rewrite Ho. apply field_match_indent in Ho.
    assert (Hlt : (pi <? indent_count old)%nat = true)
      by (apply Nat.ltb_lt; lia).
    rewrite Hlt, orb_true_r. reflexivity.
  - cbn [forallb] in Hb. apply andb_prop in Hb as [Hl Hb].
    apply andb_prop in Hl as [Hin Hm]. apply negb_true_iff in Hm.
    rewrite Hin, Hm, (IH Hb). reflexivity.
Qed.

Lemma replace_in_block_none (pi : nat) (b : pystr) (v : option pystr)
    (rest : list pystr) :
  existsb (field_match 2 b) rest = false ->
  replace_in_block pi 2 b v rest = None.
Proof.
  induction rest as [|l rest IH]; [reflexivity|]. cbn [existsb replace_in_block].
  intros H. apply orb_false_elim in H as [Hl Hr]. rewrite Hl, (IH Hr).
  destruct (is_blank l || is_comment l || (pi <? indent_count l)%nat);
    reflexivity.
Qed.

Lemma existsb_middle {A} (f : A -> bool) (pre : list A) (x : A)
    (post : list A) :
  f x = true -> existsb f (pre ++ x :: post) = true.
Proof.
  intros H. rewrite existsb_app. cbn [existsb]. rewrite H.
  rewrite orb_true_r. reflexivity.
Qed.

(** X21: for plain names, when no line opens the section, the field is
    written at the top level, without indentation, after the first line that
    is the last one or is followed by a blank line; the line of the section
    is not made. *)
Theorem update_yaml_field_without_section (content a b : pystr)
    (v : option pystr) :
  plain_name a = true ->
  plain_name b = true ->
  existsb (declares a) (split_lines content) = false ->
  update_yaml_field content [a; b] v
  = Ok (join_lines
          (firstn (insert_pos_from 0 (split_lines content)) (split_lines content)
           ++ field_line 0 b v
           :: skipn (insert_pos_from 0 (split_lines content))
                    (split_lines content))).
Proof.
  intros _ _ H. unfold update_yaml_field, update_lines.
  rewrite find_parents_two, H. reflexivity.
Qed.

(** The lines with the field replaced: the second loop walks to the line
    of the section, the inner loop to the line of the field, and the rest
    is left to the turns that find neither. *)
Lemma update_lines_replaces (a b : pystr) (v : option pystr)
    (pre : list pystr) (parent : pystr) (block : list pystr) (old : pystr)
    (post : list pystr) :
  existsb (declares a) (pre ++ block ++ post) = false ->
  declares a parent = true ->
  forallb (fun l => in_block parent l && negb (field_match 2 b l)) block
  = true ->
  field_match 2 b old = true ->
  update_lines (pre ++ parent :: block ++ old :: post) [a; b] v
  = Ok (pre ++ parent :: block ++ field_line 2 b v :: post).
Proof.
  intros Hno Hp Hb Ho. unfold update_lines.
  rewrite find_parents_two, (existsb_middle _ _ _ _ Hp).
  cbn [forallb andb negb].
  rewrite !existsb_app in Hno.
  apply orb_false_elim in Hno as [Hpre Hno].
  apply orb_false_elim in Hno as [Hblock Hpost].
  rewrite length_app. cbn [List.length].
  rewrite (update_loop_skip a b v pre _ _ false Hpre).
  rewrite (update_loop_section _ a b v parent _ false Hp).
  rewrite (replace_in_block_found (indent_count parent) b v block old post Hb Ho
             (declares_indent _ _ Hp)).
  rewrite update_loop_no_section.
  - reflexivity.
  - rewrite existsb_app. cbn [existsb].
    rewrite Hblock, Hpost, field_line_not_declares. reflexivity.
Qed.

(** X22: for plain names, when one line opens the section and the lines
    under it lead to a line that holds the field, that line is replaced by
    the field with the new value (with nothing after the colon for [None])
    and every other line stays as it is. *)
Theorem update_yaml_field_replaces (content a b : pystr) (v : option pystr)
    (pre : list pystr) (parent : pystr) (block : list pystr) (old : pystr)
    (post : list pystr) :
  plain_name a = true ->
  plain_name b = true ->
  split_lines content = pre ++ parent :: block ++ old :: post ->
  existsb (declares a) (pre ++ block ++ post) = false ->
  declares a parent = true ->
  forallb (fun l => in_block parent l && negb (field_match 2 b l)) block
  = true ->
  field_match 2 b old = true ->
  update_yaml_field content [a; b] v
  = Ok (join_lines (pre ++ parent :: block ++ field_line 2 b v :: post)).
Proof.
  intros _ _ Hsplit Hno Hp Hb Ho. unfold update_yaml_field.
  rewrite Hsplit, (update_lines_replaces a b v _ _ _ _ _ Hno Hp Hb Ho).
  reflexivity.
Qed.

(** X23: for plain names, when a line opens the section and no line after it
    holds the field, the field is written right under the line of the
    section, and every other line stays as it is. *)
Theorem update_yaml_field_adds (content a b : pystr) (v : option pystr)
    (pre : list pystr) (parent : pystr) (rest : list pystr) :
  plain_name a = true ->
  plain_name b = true ->
  split_lines content = pre ++ parent :: rest ->
  existsb (declares a) pre = false ->
  declares a parent = true ->
  existsb (field_match 2 b) rest = false ->
  update_yaml_field content [a; b] v
  = Ok (join_lines (pre ++ parent :: field_line 2 b v :: rest)).
Proof.
  intros _ _ Hsplit Hpre Hp Hr. unfold update_yaml_field, update_lines.
  rewrite find_parents_two, Hsplit, (existsb_middle _ _ _ _ Hp).
  cbn [forallb andb negb].
  rewrite length_app. cbn [List.length].
  rewrite (update_loop_skip a b v pre _ _ false Hpre).
  rewrite (update_loop_section _ a b v parent _ false Hp).
  rewrite (replace_in_block_none _ b v rest Hr). reflexivity.
Qed.

(** ** [update_yaml_field]: samples and the second call *)

Lemma update_yaml_field_without_section_witness :
  existsb (declares (lit "deepseek")) (split_lines config_without_section)
  = false
  /\ update_yaml_field config_without_section [lit "deepseek"; lit "api_key"]
                       (Some (lit "sk-new"))
     = Ok (text_lines ["server:"%string; "  port: 8899"%string;
                       "api_key: 'sk-new'"%string; ""%string;
                       "log: 'info'"%string]).
Proof.
  split; [reflexivity|].
  rewrite (update_yaml_field_without_section config_without_section
             (lit "deepseek") (lit "api_key") (Some (lit "sk-new")));
    reflexivity.
Defined.

Lemma update_yaml_field_replaces_witness :
  update_yaml_field config_with_key [lit "deepseek"; lit "api_key"] None
  = Ok (text_lines ["# settings"%string; "deepseek:"%string;
                    "  api_base: 'https://api.deepseek.com/v1'"%string;
                    "  api_key: "%string; "server:"%string;
                    "  port: 8899"%string]).
Proof.
  rewrite (update_yaml_field_replaces config_with_key (lit "deepseek")
             (lit "api_key") None
             [dq "# settings"] (dq "deepseek:")
             [dq "  api_base: 'https://api.deepseek.com/v1'"]
             (dq "  api_key: 'sk-old'")
             [dq "server:"; dq "  port: 8899"]);
    reflexivity.
Defined.

Lemma update_yaml_field_adds_witness :
  update_yaml_field config_without_key [lit "deepseek"; lit "api_key"]
                    (Some (lit "sk-new"))
  = Ok (text_lines ["deepseek:"%string; "  api_key: 'sk-new'"%string;
                    "  default_model: 'deepseek-chat'"%string;
                    "server:"%string; "  port: 8899"%string]).
Proof.
  rewrite (update_yaml_field_adds config_without_key (lit "deepseek")
             (lit "api_key") (Some (lit "sk-new"))
             [] (dq "deepseek:")
             [dq "  default_model: 'deepseek-chat'"; dq "server:";
              dq "  port: 8899"]);
    reflexivity.
Defined.

Lemma no_line_feed_app (a b : pystr) :
  no_line_feed (a ++ b) = no_line_feed a && no_line_feed b.
Proof. apply forallb_app. Qed.

Lemma split_lines_single (line : pystr) :
  no_line_feed line = true -> split_lines line = [line].
Proof.
  induction line as [|c line IH]; [reflexivity|]. cbn [no_line_feed forallb].
  intros H. apply andb_prop in H as [Hc Hl]. apply negb_true_iff in Hc.
  cbn [split_lines]. rewrite Hc, (IH Hl). reflexivity.
Qed.

Lemma split_lines_app (line rest : pystr) :
  no_line_feed line = true ->
  split_lines (line ++ 10%N :: rest) = line :: split_lines rest.
Proof.
  induction line as [|c line IH]; [reflexivity|]. cbn [no_line_feed forallb].
  intros H. apply andb_prop in H as [Hc Hl]. apply negb_true_iff in Hc.
  cbn [app split_lines]. rewrite Hc, (IH Hl). reflexivity.
Qed.

(** Splitting the text of lines without line feeds gives the lines back. *)
Lemma split_join (lines : list pystr) :
  lines <> [] -> forallb no_line_feed lines = true ->
  split_lines (join_lines lines) = lines.
Proof.
  induction lines as [|line rest IH]; [congruence|]. intros _ H.
  cbn [forallb] in H. apply andb_prop in H as [Hl Hr].
  destruct rest as [|next rest].
  - apply split_lines_single, Hl.
  - rewrite join_lines_cons by discriminate.
    rewrite (split_lines_app _ _ Hl), IH; [reflexivity|discriminate|exact Hr].
Qed.

Lemma split_lines_no_line_feed (content : pystr) :
  forallb no_line_feed (split_lines content) = true.
Proof.
  induction content as [|c rest IH]; [reflexivity|]. cbn [split_lines].
  destruct (c =? 10)%N eqn:Hc; [exact IH|].
  pose proof (split_lines_nonempty rest) as Hne.
  destruct (split_lines rest) as [|l ls]; [congruence|].
  cbn [forallb no_line_feed] in *. rewrite Hc. exact IH.
Qed.

Lemma startswith_self (p s : pystr) : startswith p (p ++ s) = true.
Proof.
  induction p as [|c p IH]; [reflexivity|]. simpl.
  rewrite N.eqb_refl. exact IH.
Qed.

Lemma dot_star_end_no_line_feed (s : pystr) :
  no_line_feed s = true -> dot_star_end s = true.
Proof.
  induction s as [|c s IH]; [reflexivity|]. cbn [no_line_feed forallb].
  intros H. apply andb_prop in H as [Hc Hs]. apply negb_true_iff in Hc.
  cbn [dot_star_end]. rewrite Hc. apply IH, Hs.
Qed.

(** The line the function writes holds the field, for a value without a
    line feed. *)
Lemma field_line_matches (b : pystr) (v : option pystr) :
  no_line_feed (value_str v) = true ->
  field_match 2 b (field_line 2 b v) = true.
Proof.
  intros Hv. unfold field_match, field_line.
  set (prefix := repeat 32%N 2 ++ b ++ [58%N]).
  replace (repeat 32%N 2 ++ b ++ [58%N; 32%N] ++ value_str v)
    with (prefix ++ 32%N :: value_str v).
  - rewrite startswith_self, skipn_app, Nat.sub_diag, skipn_all.
    cbn [app skipn]. cbn [dot_star_end]. change (32 =? 10)%N with false.
    cbn iota. apply dot_star_end_no_line_feed, Hv.
  - unfold prefix. rewrite <- !app_assoc. reflexivity.
Qed.

(** X24: the field replaced, written a second time with the same value: the
    text does not change any more. *)
Theorem update_yaml_field_twice (content a b : pystr) (v : option pystr)
    (pre : list pystr) (parent : pystr) (block : list pystr) (old : pystr)
    (post : list pystr) (out : pystr) :
  plain_name a = true ->
  plain_name b = true ->
  split_lines content = pre ++ parent :: block ++ old :: post ->
  existsb (declares a) (pre ++ block ++ post) = false ->
  declares a parent = true ->
  forallb (fun l => in_block parent l && negb (field_match 2 b l)) block
  = true ->
  field_match 2 b old = true ->
  no_line_feed b = true ->
  no_line_feed (value_str v) = true ->
  update_yaml_field content [a; b] v = Ok out ->
  update_yaml_field out [a; b] v = Ok out.
Proof.
  intros _ _ Hsplit Hno Hp Hb Ho Hnb Hnv Hout.
  unfold update_yaml_field in Hout.
  rewrite Hsplit, (update_lines_replaces a b v _ _ _ _ _ Hno Hp Hb Ho) in Hout.
  cbn [bind] in Hout. injection Hout as <-.
  unfold update_yaml_field.
  assert (Hs : split_lines
                 (join_lines
                    (pre ++ parent :: block ++ field_line 2 b v :: post))
               = pre ++ parent :: block ++ field_line 2 b v :: post).
  { apply split_join; [destruct pre; discriminate|].
    pose proof (split_lines_no_line_feed content) as Hc. rewrite Hsplit in Hc.
    rewrite forallb_app in Hc. apply andb_prop in Hc as [Hc1 Hc].
    cbn [forallb] in Hc. apply andb_prop in Hc as [Hc2 Hc].
    rewrite forallb_app in Hc. apply andb_prop in Hc as [Hc3 Hc].
    cbn [forallb] in Hc. apply andb_prop in Hc as [_ Hc4].
    rewrite forallb_app. cbn [forallb]. rewrite forallb_app. cbn [forallb].
    rewrite Hc1, Hc2, Hc3, Hc4. cbn [andb]. rewrite andb_true_r.
    unfold field_line. rewrite !no_line_feed_app, Hnb, Hnv. reflexivity. }
  rewrite Hs.
  rewrite (update_lines_replaces a b v pre parent block (field_line 2 b v) post
             Hno Hp Hb (field_line_matches b v Hnv)).
  reflexivity.
Qed.

Lemma update_yaml_field_twice_witness :
  update_yaml_field
    (text_lines ["# settings"%string; "deepseek:"%string;
                 "  api_base: 'https://api.deepseek.com/v1'"%string;
                 "  api_key: 'sk-new'"%string; "server:"%string;
                 "  port: 8899"%string])
    [lit "deepseek"; lit "api_key"] (Some (lit "sk-new"))
  = Ok (text_lines ["# settings"%string; "deepseek:"%string;
                    "  api_base: 'https://api.deepseek.com/v1'"%string;
                    "  api_key: 'sk-new'"%string; "server:"%string;
                    "  port: 8899"%string]).
Proof.
  apply (update_yaml_field_twice config_with_key (lit "deepseek")
           (lit "api_key") (Some (lit "sk-new"))
           [dq "# settings"] (dq "deepseek:")
           [dq "  api_base: 'https://api.deepseek.com/v1'"]
           (dq "  api_key: 'sk-old'")
           [dq "server:"; dq "  port: 8899"]); reflexivity.
Defined.
